(** * YoutubeRipper5000: a shallow embedding of the script and its properties

    The development follows [YoutubeRipper5000.py] top to bottom: Python
    strings and the few runtime services the script calls (regular
    expressions, [pathlib], [datetime], [print]/[input]/[open]), then the
    module constants [SETTINGS] and [YOUTUBE_PATTERNS], then the functions
    [is_valid_youtube_url], [get_download_folder], [make_log_file] and
    [main] with its local class [FileLogger]. *)

From Stdlib Require Import ZArith NArith Ascii String Bool Lia.
From Stdlib Require Import DecimalString DecimalZ.
From stdpp Require Import gmap strings list fin_maps.

Local Open Scope N_scope.

(** ** Python strings

    A Python [str] is a sequence of Unicode code points.  Literals of the
    script that are plain ASCII are written with [u "..."]; the two symbols
    outside ASCII are given by their code points. *)

Abbreviation str := (list N).

Fixpoint u (s : string) : str :=
  match s with
  | EmptyString => []
  | String a s' => N_of_ascii a :: u s'
  end.

(** [Py_UNICODE_ISSPACE]: the code points for which [str.isspace] holds.
    Both the class escape [\s] of a [str] pattern and [str.strip()] without
    argument use this table. *)
Definition Py_UNICODE_ISSPACE (c : N) : bool :=
  ((9 <=? c) && (c <=? 13)) || ((28 <=? c) && (c <=? 32))
  || (c =? 133) || (c =? 160) || (c =? 5760)
  || ((8192 <=? c) && (c <=? 8202))
  || (c =? 8232) || (c =? 8233) || (c =? 8239) || (c =? 8287)
  || (c =? 12288).

(** [str.lstrip()], [str.rstrip()] and [str.strip()]. *)
Fixpoint lstrip (s : str) : str :=
  match s with
  | c :: s' => if Py_UNICODE_ISSPACE c then lstrip s' else s
  | [] => []
  end.

Definition rstrip (s : str) : str := rev (lstrip (rev s)).

Definition strip (s : str) : str := rstrip (lstrip s).

(** ** Regular expressions, as far as [YOUTUBE_PATTERNS] uses them *)

Module Re.

(** Members of a bracketed set: a literal character or the class [\s]. *)
Inductive set_item : Type :=
| SChar (c : N)
| SSpace.

(** What consumes exactly one character: a literal, or a negated set
    [[^...]]. *)
Inductive atom : Type :=
| ALit (c : N)
| ANotIn (items : list set_item).

Inductive regex : Type :=
| Eps
| Caret                      (* ^ *)
| One (a : atom)
| Cat (r1 r2 : regex)
| Opt (r : regex)            (* r?  (greedy) *)
| Plus (a : atom).           (* a+  (greedy) *)

Definition item_ok (i : set_item) (c : N) : bool :=
  match i with
  | SChar x => c =? x
  | SSpace => Py_UNICODE_ISSPACE c
  end.

Definition atom_ok (a : atom) (c : N) : bool :=
  match a with
  | ALit x => c =? x
  | ANotIn items => negb (existsb (fun i => item_ok i c) items)
  end.

(** A run of literal characters. *)
Fixpoint lit (w : str) : regex :=
  match w with
  | [] => Eps
  | c :: w' => Cat (One (ALit c)) (lit w')
  end.

(** [a+] from the current position: the longer run is tried first, then
    the continuation at the current end. *)
Fixpoint plus_from (a : atom) (s : str) (k : str -> bool) : bool :=
  match s with
  | [] => false
  | c :: s' => atom_ok a c && (plus_from a s' k || k s')
  end.

(** The backtracking matcher.  [at0] tells whether the current position
    is the start of the subject; [k] is the rest of the pattern, applied
    to what is left of the subject. *)
Fixpoint run (r : regex) (at0 : bool) (s : str)
    (k : bool -> str -> bool) : bool :=
  match r with
  | Eps => k at0 s
  | Caret => at0 && k at0 s
  | One a =>
      match s with
      | c :: s' => atom_ok a c && k false s'
      | [] => false
      end
  | Cat r1 r2 => run r1 at0 s (fun b s' => run r2 b s' k)
  | Opt r' => run r' at0 s k || k at0 s
  | Plus a => plus_from a s (k false)
  end.

(** [re.match(p, s)] tries the pattern at position 0 only and does not
    require it to reach the end of [s].  The script uses the result only
    for its truth value (a match object is true, [None] is false). *)
Definition match_ (p : regex) (s : str) : bool :=
  run p true s (fun _ _ => true).

(** The words a pattern matches exactly: [den r b w b'] when [r] matches
    [w] beginning at a position that is the start of the subject iff [b],
    and ending at one that is iff [b']. *)
Fixpoint den (r : regex) (b : bool) (w : str) (b' : bool) : Prop :=
  match r with
  | Eps => w = [] ∧ b' = b
  | Caret => w = [] ∧ b = true ∧ b' = true
  | One a => ∃ c, w = [c] ∧ atom_ok a c = true ∧ b' = false
  | Cat r1 r2 =>
      ∃ w1 w2 b1, w = w1 ++ w2 ∧ den r1 b w1 b1 ∧ den r2 b1 w2 b'
  | Opt r' => den r' b w b' ∨ (w = [] ∧ b' = b)
  | Plus a =>
      w ≠ [] ∧ Forall (fun c => atom_ok a c = true) w ∧ b' = false
  end.

End Re.

(** ** Module constants *)

(** [YOUTUBE_PATTERNS] *)
Definition scheme : Re.regex :=              (* ^https?:// *)
  Re.Cat Re.Caret
    (Re.Cat (Re.lit (u "http"))
       (Re.Cat (Re.Opt (Re.One (Re.ALit 115))) (Re.lit (u "://")))).

Definition not_amp_space : Re.atom :=        (* [^&\s] *)
  Re.ANotIn [Re.SChar 38; Re.SSpace].

Definition not_qmark_space : Re.atom :=      (* [^?\s] *)
  Re.ANotIn [Re.SChar 63; Re.SSpace].

Definition pattern (sub host_path : string) (a : Re.atom) : Re.regex :=
  Re.Cat scheme
    (Re.Cat (Re.Opt (Re.lit (u sub)))
       (Re.Cat (Re.lit (u host_path)) (Re.Plus a))).

Definition YOUTUBE_PATTERNS : list Re.regex :=
  [ (* ^https?://(www\.)?youtube\.com/watch\?v=[^&\s]+ *)
    pattern "www." "youtube.com/watch?v=" not_amp_space;
    (* ^https?://(www\.)?youtube\.com/playlist\?list=[^&\s]+ *)
    pattern "www." "youtube.com/playlist?list=" not_amp_space;
    (* ^https?://(m\.)?youtube\.com/watch\?v=[^&\s]+ *)
    pattern "m." "youtube.com/watch?v=" not_amp_space;
    (* ^https?://(www\.)?youtu\.be/[^?\s]+ *)
    pattern "www." "youtu.be/" not_qmark_space ].

(** ** URL validation *)

Definition is_valid_youtube_url (url : str) : bool :=
  existsb (fun p => Re.match_ p url) YOUTUBE_PATTERNS.

(** ** Integers and dates as text *)

Local Open Scope Z_scope.

(** [str(n)] for an [int]: decimal digits, with a minus sign when
    negative. *)
Definition int_str (z : Z) : str := u (NilZero.string_of_int (Z.to_int z)).

Definition digit (d : Z) : N := (48 + Z.to_N d)%N.

(** [width] decimal digits of [z], most significant first: the text of
    [%0<width>d] for [0 <= z < 10 ^ width]. *)
Fixpoint zpad (width : nat) (z : Z) : str :=
  match width with
  | O => []
  | S w => zpad w (z / 10) ++ [digit (z mod 10)]
  end.

(** A naive [datetime.datetime]; the class keeps every field in range
    ([wf_datetime]). *)
Record datetime : Type := mkDatetime {
  year : Z; month : Z; day : Z;
  hour : Z; minute : Z; second : Z; microsecond : Z
}.

Definition wf_datetime (t : datetime) : Prop :=
  1 <= year t <= 9999 ∧ 1 <= month t <= 12 ∧ 1 <= day t <= 31 ∧
  0 <= hour t <= 23 ∧ 0 <= minute t <= 59 ∧ 0 <= second t <= 59 ∧
  0 <= microsecond t <= 999999.

(** One [strftime] directive; the script uses [%Y %m %d %H %M %S].  Any
    other letter is left as written. *)
Definition directive (d : N) (t : datetime) : str :=
  if (d =? 89)%N then zpad 4 (year t)            (* %Y *)
  else if (d =? 109)%N then zpad 2 (month t)     (* %m *)
  else if (d =? 100)%N then zpad 2 (day t)       (* %d *)
  else if (d =? 72)%N then zpad 2 (hour t)       (* %H *)
  else if (d =? 77)%N then zpad 2 (minute t)     (* %M *)
  else if (d =? 83)%N then zpad 2 (second t)     (* %S *)
  else [37%N; d].

Fixpoint strftime (fmt : str) (t : datetime) : str :=
  match fmt with
  | [] => []
  | c :: rest =>
      if (c =? 37)%N then
        match rest with
        | d :: rest' => directive d t ++ strftime rest' t
        | [] => [c]
        end
      else c :: strftime rest t
  end.

(** [str(t)], that is [t.isoformat(sep=' ')]: the fraction is printed only
    when the microsecond field is not zero. *)
Definition datetime_str (t : datetime) : str :=
  zpad 4 (year t) ++ u "-" ++ zpad 2 (month t) ++ u "-" ++ zpad 2 (day t)
  ++ u " " ++ zpad 2 (hour t) ++ u ":" ++ zpad 2 (minute t) ++ u ":"
  ++ zpad 2 (second t)
  ++ (if microsecond t =? 0 then [] else u "." ++ zpad 6 (microsecond t)).

(** ** Paths ([pathlib.Path]) *)

Record Path : Type := mkPath { anchor : str; parts : list str }.

#[global] Instance Path_eq_dec : EqDecision Path.
Proof. solve_decision. Defined.

#[global] Instance Path_countable : Countable Path.
Proof.
  refine (inj_countable' (λ p, (anchor p, parts p))
            (λ x, mkPath x.1 x.2) _).
  by intros [].
Defined.

(** [p / name] for a [name] that is a single component. *)
Definition joinpath (p : Path) (name : str) : Path :=
  mkPath (anchor p) (parts p ++ [name]).

Infix "</>" := joinpath (at level 40, left associativity).

(** [p.parent]; the parent of an anchor is the anchor itself. *)
Definition parent (p : Path) : Path :=
  mkPath (anchor p) (removelast (parts p)).

(** [p.name] *)
Definition name (p : Path) : str := List.last (parts p) [].

Fixpoint join (sep : str) (l : list str) : str :=
  match l with
  | [] => []
  | [x] => x
  | x :: l' => x ++ sep ++ join sep l'
  end.

(** [str(p)], with the separator of the platform. *)
Definition path_str (sep : str) (p : Path) : str :=
  anchor p ++ join sep (parts p).

(** ** Values and dictionaries *)

(** An instance of the class [FileLogger] that [main] declares. *)
Record FileLogger : Type := mkFileLogger { logfile : Path }.

Inductive value : Type :=
| VStr (s : str)
| VBool (b : bool)
| VInt (z : Z)
| VNone
| VLogger (l : FileLogger).

Definition truthy (v : value) : bool :=
  match v with
  | VStr s => negb (bool_decide (s = []))
  | VBool b => b
  | VInt z => negb (z =? 0)
  | VNone => false
  | VLogger _ => true
  end.

(** [not v] *)
Definition py_not (v : value) : value := VBool (negb (truthy v)).

(** A dictionary display [{k1: v1, ...}]: entries are stored from left to
    right. *)
Definition dict_display (l : list (str * value)) : gmap str value :=
  foldl (λ d kv, <[kv.1 := kv.2]> d) ∅ l.

(** [SETTINGS] *)
Definition SETTINGS : gmap str value :=
  dict_display
    [ (u "format", VStr (u "bv*+ba/best"));
      (u "merge_output_format", VStr (u "mp4"));
      (u "force_overwrites", VBool true);
      (u "no_continue", VBool true);
      (u "ignoreerrors", VBool true);
      (u "retries", VInt 10);
      (u "fragment_retries", VInt 10);
      (u "writethumbnail", VBool true);
      (u "writeinfojson", VBool true);
      (u "embedthumbnail", VBool true);
      (u "restrictfilenames", VBool true) ].

(** ** The world the script runs in *)

Inductive Node : Type :=
| Dir
| File (content : str).

(** What the process does to its surroundings, in order. *)
Inductive Event : Type :=
| Stdout (text : str)
| ReadLine (line : str)
| Mkdir (p : Path)
| FileOpen (p : Path)
| FileWrite (p : Path) (text : str)
| FileClose (p : Path).

Record World : Type := mkWorld {
  fs : gmap Path Node;          (* the file system *)
  open_files : list Path;       (* file objects that are open *)
  stdin : list str;             (* lines waiting on standard input *)
  clock : nat -> datetime;      (* what the n-th reading of the clock gives *)
  ticks : nat;                  (* readings of the clock so far *)
  trace : list Event
}.

Definition set_fs (f : gmap Path Node) (w : World) : World :=
  mkWorld f (open_files w) (stdin w) (clock w) (ticks w) (trace w).

Definition set_open_files (l : list Path) (w : World) : World :=
  mkWorld (fs w) l (stdin w) (clock w) (ticks w) (trace w).

Definition set_stdin (l : list str) (w : World) : World :=
  mkWorld (fs w) (open_files w) l (clock w) (ticks w) (trace w).

Definition tick (w : World) : World :=
  mkWorld (fs w) (open_files w) (stdin w) (clock w) (S (ticks w)) (trace w).

Definition emit (e : Event) (w : World) : World :=
  mkWorld (fs w) (open_files w) (stdin w) (clock w) (ticks w)
    (trace w ++ [e]).

Inductive Exn : Type :=
| EOFError
| KeyError (k : str)
| FileExistsError
| FileNotFoundError
| NotADirectoryError
| IsADirectoryError
| ValueError.

(** How a piece of the script ends: with a value, with [sys.exit(code)],
    or with an exception that nothing catches. *)
Inductive Result (A : Type) : Type :=
| Ok (a : A)
| SystemExit (code : Z)
| Raised (e : Exn).

Arguments Ok {A} a.
Arguments SystemExit {A} code.
Arguments Raised {A} e.

Definition M (A : Type) : Type := World -> Result A * World.

Definition ret {A} (a : A) : M A := λ w, (Ok a, w).

Definition bind {A B} (c : M A) (k : A -> M B) : M B :=
  λ w, match c w with
       | (Ok a, w') => k a w'
       | (SystemExit code, w') => (SystemExit code, w')
       | (Raised e, w') => (Raised e, w')
       end.

Notation "x <- c ;; k" := (bind c (λ x, k))
  (at level 100, c at next level, right associativity).
Notation "c ;;; k" := (bind c (λ _, k))
  (at level 100, right associativity).

Definition raise {A} (e : Exn) : M A := λ w, (Raised e, w).

(** [sys.exit(code)] *)
Definition sys_exit {A} (code : Z) : M A := λ w, (SystemExit code, w).

(** The exit status of the process when the script ends with [r].  For
    [sys.exit(code)] it is the code itself, as every platform reports a
    code from 0 to 255; a code outside that range is cut down by the
    platform in its own way, which is not modelled. *)
Definition exit_status {A} (r : Result A) : Z :=
  match r with
  | Ok _ => 0
  | SystemExit code => code
  | Raised _ => 1
  end.

(** [print(s)] *)
Definition print (s : str) : M unit :=
  λ w, (Ok tt, emit (Stdout (s ++ [10%N])) w).

(** [input(prompt)] *)
Definition input (prompt : str) : M str :=
  λ w, let w1 := emit (Stdout prompt) w in
       match stdin w1 with
       | [] => (Raised EOFError, w1)
       | line :: rest => (Ok line, emit (ReadLine line) (set_stdin rest w1))
       end.

(** [datetime.datetime.now()] *)
Definition now : M datetime :=
  λ w, (Ok (clock w (ticks w)), tick w).

(** [d[k]] *)
Definition getitem (d : gmap str value) (k : str) : M value :=
  match d !! k with
  | Some v => ret v
  | None => raise (KeyError k)
  end.

(** [os.mkdir(p)] *)
Definition os_mkdir (p : Path) (f : gmap Path Node) : Exn + gmap Path Node :=
  match f !! p with
  | Some _ => inl FileExistsError
  | None =>
      match f !! parent p with
      | Some Dir => inr (<[p := Dir]> f)
      | Some (File _) => inl NotADirectoryError
      | None => inl FileNotFoundError
      end
  end.

Definition is_FileNotFoundError (e : Exn) : bool :=
  match e with FileNotFoundError => true | _ => false end.

Definition is_dir (p : Path) (f : gmap Path Node) : bool :=
  match f !! p with Some Dir => true | _ => false end.

(** [Path.mkdir(parents=True, exist_ok=True)], on the path with anchor [a]
    whose components, last one first, are [rparts]: make the directory; if
    its parent is missing make the parent in the same way and try again; an
    existing directory is accepted. *)
Fixpoint mkdir_p (a : str) (rparts : list str) (f : gmap Path Node)
    : Exn + gmap Path Node :=
  let p := mkPath a (rev rparts) in
  match os_mkdir p f with
  | inr f' => inr f'
  | inl e =>
      if is_FileNotFoundError e then
        match rparts with
        | [] => inl e
        | _ :: up =>
            match mkdir_p a up f with
            | inl e' => inl e'
            | inr f' =>
                match os_mkdir p f' with
                | inr f'' => inr f''
                | inl e' => if is_dir p f' then inr f' else inl e'
                end
            end
        end
      else if is_dir p f then inr f
      else inl e
  end.

Definition Path_mkdir (p : Path) : M unit :=
  λ w, let w1 := emit (Mkdir p) w in
       match mkdir_p (anchor p) (rev (parts p)) (fs w1) with
       | inl e => (Raised e, w1)
       | inr f' => (Ok tt, set_fs f' w1)
       end.

(** [p.exists()] *)
Definition Path_exists (p : Path) : M bool :=
  λ w, (Ok (bool_decide (is_Some (fs w !! p))), w).

(** [open(p, "a", encoding="utf-8")]: the file is created when it is
    missing and its directory is there. *)
Definition open_append (p : Path) : M Path :=
  λ w, match fs w !! p with
       | Some Dir => (Raised IsADirectoryError, w)
       | Some (File _) =>
           (Ok p, emit (FileOpen p) (set_open_files (p :: open_files w) w))
       | None =>
           match fs w !! parent p with
           | Some Dir =>
               (Ok p, emit (FileOpen p)
                        (set_open_files (p :: open_files w)
                           (set_fs (<[p := File []]> (fs w)) w)))
           | Some (File _) => (Raised NotADirectoryError, w)
           | None => (Raised FileNotFoundError, w)
           end
       end.

(** [f.write(text)] on a file object opened for appending. *)
Definition file_write (h : Path) (text : str) : M unit :=
  λ w, match fs w !! h with
       | Some (File c) =>
           if bool_decide (h ∈ open_files w) then
             (Ok tt,
              emit (FileWrite h text)
                (set_fs (<[h := File (c ++ text)]> (fs w)) w))
           else (Raised ValueError, w)
       | _ => (Raised ValueError, w)
       end.

Fixpoint remove_first (h : Path) (l : list Path) : list Path :=
  match l with
  | [] => []
  | x :: l' => if bool_decide (x = h) then l' else x :: remove_first h l'
  end.

(** [f.close()] *)
Definition file_close (h : Path) : M unit :=
  λ w, (Ok tt,
        emit (FileClose h)
          (set_open_files (remove_first h (open_files w)) w)).

(** [with open(p, "a", encoding="utf-8") as f: body f]: the file is closed
    when the body is left, however it is left. *)
Definition with_open_append {A} (p : Path) (body : Path -> M A) : M A :=
  λ w, match open_append p w with
       | (Ok h, w1) =>
           match body h w1 with
           | (r, w2) => (r, snd (file_close h w2))
           end
       | (SystemExit code, w1) => (SystemExit code, w1)
       | (Raised e, w1) => (Raised e, w1)
       end.

(** The extraction engine: [with yt_dlp.YoutubeDL(opts) as ydl:
    ydl.download(urls)].  What it does is not part of this script. *)
Abbreviation Engine := (gmap str value -> list str -> M Z).

(** ** The script *)

(** The class [FileLogger] of [main]: [__init__] is [mkFileLogger]. *)
Definition FileLogger__write (self : FileLogger) (level msg : str) : M unit :=
  t <- now ;;
  let line := u "[" ++ datetime_str t ++ u "] [" ++ level ++ u "] " ++ msg in
  print line ;;;
  with_open_append (logfile self) (λ f, file_write f (line ++ [10%N])).

Definition FileLogger_debug (self : FileLogger) (msg : str) : M unit :=
  FileLogger__write self (u "DEBUG") msg.

Definition FileLogger_warning (self : FileLogger) (msg : str) : M unit :=
  FileLogger__write self (u "WARN") msg.

Definition FileLogger_error (self : FileLogger) (msg : str) : M unit :=
  FileLogger__write self (u "ERROR") msg.

(** U+26A0 U+FE0F, the warning sign of two messages, and U+2705, the check
    mark of the last one. *)
Definition warning_sign : str := [9888%N; 65039%N].
Definition check_mark : str := [9989%N].

Section Script.

Variable sep : str.            (* what [str(p)] puts between components *)
Variable script_dir : Path.    (* [Path(__file__).resolve().parent] *)
Variable argv : list str.      (* [sys.argv] *)
Variable yt_dlp : Engine.

Definition get_download_folder : M Path :=
  let outdir := script_dir </> u "Downloads" in
  Path_mkdir outdir ;;;
  ret outdir.

Definition make_log_file (outdir : Path) : M Path :=
  t <- now ;;
  ret (outdir </>
         (u "download_" ++ strftime (u "%Y%m%d_%H%M%S") t ++ u ".log")).

(** The first statement of [main]: [sys.argv[1]] when there is one, else
    the stripped answer to the prompt. *)
Definition read_url : M str :=
  match argv with
  | _ :: arg :: _ => ret arg
  | _ => line <- input (u "Paste a YouTube URL: ") ;; ret (strip line)
  end.

(** The dictionary display bound to [ydl_opts] in [main]. *)
Definition ydl_opts (outdir ffmpeg_path : Path) : M (gmap str value) :=
  format <- getitem SETTINGS (u "format") ;;
  merge_output_format <- getitem SETTINGS (u "merge_output_format") ;;
  let outtmpl :=
    path_str sep (outdir </> u "%(title)s" </> u "%(title)s.%(ext)s") in
  writethumbnail <- getitem SETTINGS (u "writethumbnail") ;;
  writeinfojson <- getitem SETTINGS (u "writeinfojson") ;;
  embedthumbnail <- getitem SETTINGS (u "embedthumbnail") ;;
  restrictfilenames <- getitem SETTINGS (u "restrictfilenames") ;;
  retries <- getitem SETTINGS (u "retries") ;;
  fragment_retries <- getitem SETTINGS (u "fragment_retries") ;;
  ignoreerrors <- getitem SETTINGS (u "ignoreerrors") ;;
  force_overwrites <- getitem SETTINGS (u "force_overwrites") ;;
  no_continue <- getitem SETTINGS (u "no_continue") ;;
  ret (dict_display
         [ (u "format", format);
           (u "merge_output_format", merge_output_format);
           (u "outtmpl", VStr outtmpl);
           (u "writethumbnail", writethumbnail);
           (u "writeinfojson", writeinfojson);
           (u "embedthumbnail", embedthumbnail);
           (u "restrictfilenames", restrictfilenames);
           (u "retries", retries);
           (u "fragment_retries", fragment_retries);
           (u "ignoreerrors", ignoreerrors);
           (u "nooverwrites", py_not force_overwrites);
           (u "continuedl", py_not no_continue);
           (u "ffmpeg_location", VStr (path_str sep ffmpeg_path));
           (u "logger", VNone) ]).

Definition main : M unit :=
  url <- read_url ;;
  (if negb (is_valid_youtube_url url) then
     print (u "Invalid or unsupported YouTube URL.") ;;;
     sys_exit 1
   else ret tt) ;;;
  outdir <- get_download_folder ;;
  logpath <- make_log_file outdir ;;
  print (u "Output folder: " ++ path_str sep outdir) ;;;
  print (u "Log file: " ++ path_str sep logpath) ;;;
  let ffmpeg_path := script_dir </> u "ffmpeg.exe" in
  present <- Path_exists ffmpeg_path ;;
  (if negb present then
     print (warning_sign ++ u " ffmpeg.exe not found in "
            ++ path_str sep script_dir
            ++ u ". Please place ffmpeg.exe next to this script.") ;;;
     sys_exit 1
   else ret tt) ;;;
  opts <- ydl_opts outdir ffmpeg_path ;;
  let opts := <[u "logger" := VLogger (mkFileLogger logpath)]> opts in
  result <- yt_dlp opts [url] ;;
  if result =? 0 then
    print (check_mark ++ u " Download complete.")
  else
    print (warning_sign ++ u " Download finished with exit code "
           ++ int_str result ++ u ". See log for details.").

End Script.

(** * Vocabulary of the properties *)

(** The four accepted shapes, spelled out. *)
Definition is_scheme (s : str) : Prop := s = u "http" ∨ s = u "https".

Definition optional (sub : string) (s : str) : Prop := s = [] ∨ s = u sub.

(** A non-empty run of characters that are neither [stop] nor white
    space. *)
Definition identifier (stop : N) (id : str) : Prop :=
  id ≠ [] ∧ Forall (λ c, c ≠ stop ∧ Py_UNICODE_ISSPACE c = false) id.

Inductive accepted_shape : str → Prop :=
| standard_watch sch sub id :
    is_scheme sch → optional "www." sub → identifier 38%N id →
    accepted_shape (sch ++ u "://" ++ sub ++ u "youtube.com/watch?v=" ++ id)
| playlist sch sub id :
    is_scheme sch → optional "www." sub → identifier 38%N id →
    accepted_shape
      (sch ++ u "://" ++ sub ++ u "youtube.com/playlist?list=" ++ id)
| mobile_watch sch sub id :
    is_scheme sch → optional "m." sub → identifier 38%N id →
    accepted_shape (sch ++ u "://" ++ sub ++ u "youtube.com/watch?v=" ++ id)
| short_link sch sub id :
    is_scheme sch → optional "www." sub → identifier 63%N id →
    accepted_shape (sch ++ u "://" ++ sub ++ u "youtu.be/" ++ id).

Definition has_accepted_prefix (url : str) : Prop :=
  ∃ p rest, url = p ++ rest ∧ accepted_shape p.

Definition starts_with (pre s : str) : Prop := ∃ rest, s = pre ++ rest.

Definition contains (needle s : str) : Prop :=
  ∃ before after, s = before ++ needle ++ after.

(** The bodies that follow the optional subdomain: the watch body is
    shared by the standard and the mobile shape. *)
Inductive Body : Type := Watch | PlaylistList | ShortLink.

Definition host_path (k : Body) : string :=
  match k with
  | Watch => "youtube.com/watch?v="
  | PlaylistList => "youtube.com/playlist?list="
  | ShortLink => "youtu.be/"
  end.

Definition stop_char (k : Body) : N :=
  match k with
  | ShortLink => 63%N
  | _ => 38%N
  end.

(** The part of a body that a URL of that kind cannot do without. *)
Definition required_segment (k : Body) : string :=
  match k with
  | Watch => "/watch?v="
  | PlaylistList => "/playlist?list="
  | ShortLink => "youtu.be/"
  end.

Definition url_of (sch sub : str) (k : Body) (id : str) : str :=
  sch ++ u "://" ++ sub ++ u (host_path k) ++ id.

(** Which subdomain prefixes each body is matched with. *)
Definition tolerated (k : Body) (sub : str) : Prop :=
  sub = [] ∨ sub = u "www." ∨ (k = Watch ∧ sub = u "m.").

(** The reading under which [www.] and [m.] are both optional before
    every body. *)
Definition every_subdomain_everywhere : Prop :=
  ∀ sch sub k id,
    is_scheme sch → sub = [] ∨ sub = u "www." ∨ sub = u "m." →
    identifier (stop_char k) id →
    is_valid_youtube_url (url_of sch sub k id) = true.

(** Events of the console only: nothing is made or opened. *)
Definition console_only (e : Event) : Prop :=
  match e with
  | Stdout _ | ReadLine _ => True
  | _ => False
  end.

(** The event of [print(line)]. *)
Definition printed (line : str) : Event := Stdout (line ++ [10%N]).

Definition invalid_message : str := u "Invalid or unsupported YouTube URL.".

(** Where [main] puts things, next to the script. *)
Definition downloads (script_dir : Path) : Path := script_dir </> u "Downloads".

Definition ffmpeg (script_dir : Path) : Path := script_dir </> u "ffmpeg.exe".

(** [Path.mkdir(parents=True, exist_ok=True)] on [p], started on the file
    system [f], returns normally and leaves [f']. *)
Definition mkdir_gives (p : Path) (f f' : gmap Path Node) : Prop :=
  mkdir_p (anchor p) (rev (parts p)) f = inr f'.

(** The text of a time stamp [YYYYMMDD_HHMMSS]. *)
Definition stamp (t : datetime) : str :=
  zpad 4 (year t) ++ zpad 2 (month t) ++ zpad 2 (day t) ++ u "_"
  ++ zpad 2 (hour t) ++ zpad 2 (minute t) ++ zpad 2 (second t).

Definition log_path (outdir : Path) (t : datetime) : Path :=
  outdir </> (u "download_" ++ stamp t ++ u ".log").

Definition same_second (t1 t2 : datetime) : Prop :=
  year t1 = year t2 ∧ month t1 = month t2 ∧ day t1 = day t2 ∧
  hour t1 = hour t2 ∧ minute t1 = minute t2 ∧ second t1 = second t2.

(** The configuration in the words of its description: what each option
    is expected to hold. *)
Definition expected_opts (sep : str) (outdir ffmpeg_path : Path)
    : gmap str value :=
  dict_display
    [ (u "format", VStr (u "bv*+ba/best"));
      (u "merge_output_format", VStr (u "mp4"));
      (u "outtmpl",
       VStr (path_str sep outdir ++ sep ++ u "%(title)s" ++ sep
             ++ u "%(title)s.%(ext)s"));
      (u "writethumbnail", VBool true);
      (u "writeinfojson", VBool true);
      (u "embedthumbnail", VBool true);
      (u "restrictfilenames", VBool true);
      (u "retries", VInt 10);
      (u "fragment_retries", VInt 10);
      (u "ignoreerrors", VBool true);
      (u "nooverwrites", VBool false);
      (u "continuedl", VBool false);
      (u "ffmpeg_location", VStr (path_str sep ffmpeg_path));
      (u "logger", VNone) ].

(** The record handed to the engine: the configuration with the logger of
    the run put in. *)
Definition passed_opts (sep : str) (script_dir : Path) (t : datetime)
    : gmap str value :=
  <[u "logger" := VLogger (mkFileLogger (log_path (downloads script_dir) t))]>
    (expected_opts sep (downloads script_dir) (ffmpeg script_dir)).

(** The world when [main] has made the folder, chosen the log file and
    printed both; [w1] is the world after the URL was read and [f'] the
    file system after the folder was made. *)
Definition announced (sep : str) (script_dir : Path) (f' : gmap Path Node)
    (w1 : World) : World :=
  let outdir := downloads script_dir in
  let logpath := log_path outdir (clock w1 (ticks w1)) in
  emit (printed (u "Log file: " ++ path_str sep logpath))
    (emit (printed (u "Output folder: " ++ path_str sep outdir))
       (tick (set_fs f' (emit (Mkdir outdir) w1)))).

Definition missing_message (sep : str) (script_dir : Path) : str :=
  warning_sign ++ u " ffmpeg.exe not found in " ++ path_str sep script_dir
  ++ u ". Please place ffmpeg.exe next to this script.".

Definition complete_message : str :=
  check_mark ++ u " Download complete.".

Definition failed_message (result : Z) : str :=
  warning_sign ++ u " Download finished with exit code " ++ int_str result
  ++ u ". See log for details.".

(** The number a run of decimal digits stands for. *)
Definition dec_value (s : str) : Z :=
  fold_left (λ acc c, acc * 10 + (Z.of_N c - 48)) s 0.

(** [open(p, "a")] succeeds on [f]: [p] is a file holding [c], or is
    missing in a directory that is there ([c] is then empty). *)
Definition appendable (p : Path) (f : gmap Path Node) (c : str) : Prop :=
  f !! p = Some (File c) ∨
  (f !! p = None ∧ f !! parent p = Some Dir ∧ c = []).

(** The line of the logger for a message, and the world after it was
    logged: the clock read once, the line on the console, the same line
    at the end of the log file, which was opened and closed again. *)
Definition log_line (t : datetime) (tag msg : str) : str :=
  u "[" ++ datetime_str t ++ u "] [" ++ tag ++ u "] " ++ msg.

Definition logged (tag : str) (self : FileLogger) (msg : str)
    (c : str) (w : World) : World :=
  let line := log_line (clock w (ticks w)) tag msg ++ [10%N] in
  mkWorld (<[logfile self := File (c ++ line)]> (fs w))
    (open_files w) (stdin w) (clock w) (S (ticks w))
    (trace w ++ [ Stdout line; FileOpen (logfile self);
                  FileWrite (logfile self) line; FileClose (logfile self) ]).

(** Sample surroundings: a script in [C:\ripper], run at some instant. *)
Definition backslash : str := [92%N].

Definition sample_dir : Path := mkPath (u "C:" ++ backslash) [u "ripper"].

Definition sample_fs : gmap Path Node :=
  <[sample_dir := Dir]> (<[mkPath (u "C:" ++ backslash) [] := Dir]> ∅).

Definition sample_fs_ffmpeg : gmap Path Node :=
  <[ffmpeg sample_dir := File []]> sample_fs.

Definition sample_time : datetime := mkDatetime 2024 2 29 23 59 7 1500.

Definition sample_world (f : gmap Path Node) (lines : list str) : World :=
  mkWorld f [] lines (λ _, sample_time) 0 [].

Definition sample_engine (result : Z) : Engine := λ _ _, ret result.

Definition sample_argv (args : list str) : list str :=
  u "YoutubeRipper5000.py" :: args.

Definition sample_url : str := u "https://www.youtube.com/watch?v=abc123".

(** The same URL between two spaces. *)
Definition sample_padded : str := u " https://www.youtube.com/watch?v=abc123 ".

(** The three operations of the logger, by level, and a run of calls as
    the engine may make them. *)
Inductive Level : Type := Debug | Warning | Error.

Definition level_tag (l : Level) : str :=
  match l with
  | Debug => u "DEBUG"
  | Warning => u "WARN"
  | Error => u "ERROR"
  end.

Definition log_call (self : FileLogger) (l : Level) (msg : str) : M unit :=
  match l with
  | Debug => FileLogger_debug self msg
  | Warning => FileLogger_warning self msg
  | Error => FileLogger_error self msg
  end.

Fixpoint log_calls (self : FileLogger) (calls : list (Level * str))
    : M unit :=
  match calls with
  | [] => ret tt
  | (l, msg) :: rest => log_call self l msg ;;; log_calls self rest
  end.

(** The lines such a run of calls produces when the clock is read for the
    [n]-th time at its first call. *)
Fixpoint log_text (clk : nat → datetime) (n : nat)
    (calls : list (Level * str)) : str :=
  match calls with
  | [] => []
  | (l, msg) :: rest =>
      log_line (clk n) (level_tag l) msg ++ [10%N] ++ log_text clk (S n) rest
  end.

(** All that a trace wrote to standard output. *)
Fixpoint stdout_text (tr : list Event) : str :=
  match tr with
  | [] => []
  | Stdout text :: tr' => text ++ stdout_text tr'
  | _ :: tr' => stdout_text tr'
  end.

(** [s1 < s2] on [str]: the first code point that differs decides, and a
    proper prefix comes first. *)
Fixpoint str_ltb (s1 s2 : str) : bool :=
  match s1, s2 with
  | _, [] => false
  | [], _ :: _ => true
  | c1 :: r1, c2 :: r2 => (c1 <? c2)%N || ((c1 =? c2)%N && str_ltb r1 r2)
  end.

(** One instant is before another, seconds being the finest grain. *)
Definition earlier (t1 t2 : datetime) : Prop :=
  year t1 < year t2 ∨ (year t1 = year t2 ∧
  (month t1 < month t2 ∨ (month t1 = month t2 ∧
  (day t1 < day t2 ∨ (day t1 = day t2 ∧
  (hour t1 < hour t2 ∨ (hour t1 = hour t2 ∧
  (minute t1 < minute t2 ∨ (minute t1 = minute t2 ∧
   second t1 < second t2))))))))).

(** The names of the options the engine is given. *)
Definition option_names : list str :=
  [ u "format"; u "merge_output_format"; u "outtmpl"; u "writethumbnail";
    u "writeinfojson"; u "embedthumbnail"; u "restrictfilenames";
    u "retries"; u "fragment_retries"; u "ignoreerrors"; u "nooverwrites";
    u "continuedl"; u "ffmpeg_location"; u "logger" ].

(** An engine that reports through the logger it was given, call after
    call, and then returns a result code. *)
Definition logging_engine (calls : list (Level * str)) (result : Z)
    : Engine :=
  λ opts _,
    match opts !! u "logger" with
    | Some (VLogger l) => log_calls l calls ;;; ret result
    | _ => raise ValueError
    end.

(** Decimal notation, read back: [s] is [z] written with exactly [n]
    digits; [s] is the integer [z], with a minus sign when negative. *)
Definition is_digit (c : N) : Prop := (48 <= c <= 57)%N.

Definition decimal (n : nat) (z : Z) (s : str) : Prop :=
  length s = n ∧ Forall is_digit s ∧ dec_value s = z.

Definition int_text (z : Z) (s : str) : Prop :=
  (0 <= z ∧ s ≠ [] ∧ Forall is_digit s ∧ dec_value s = z) ∨
  (z < 0 ∧ ∃ ds, s = 45%N :: ds ∧ ds ≠ [] ∧ Forall is_digit ds ∧
                 dec_value ds = - z).

(** [s] is the instant [t] as [YYYY-MM-DD HH:MM:SS], followed by a point
    and six digits of microseconds when these are not zero. *)
Definition timestamp_text (t : datetime) (s : str) : Prop :=
  ∃ Y M D h m sec F,
    s = Y ++ u "-" ++ M ++ u "-" ++ D ++ u " " ++ h ++ u ":" ++ m ++ u ":"
        ++ sec ++ F ∧
    decimal 4 (year t) Y ∧ decimal 2 (month t) M ∧ decimal 2 (day t) D ∧
    decimal 2 (hour t) h ∧ decimal 2 (minute t) m ∧
    decimal 2 (second t) sec ∧
    ((microsecond t = 0 ∧ F = []) ∨
     (microsecond t ≠ 0 ∧ ∃ f, F = u "." ++ f ∧
                                decimal 6 (microsecond t) f)).

(** The components of a path as text: the first as it is, every further
    one behind a separator. *)
Definition parts_text (sep : str) (l : list str) : str :=
  match l with
  | [] => []
  | x :: l' => x ++ concat (map (λ y, sep ++ y) l')
  end.

(** * Properties *)

(** ** The definitions on concrete inputs *)

Example strip_sample : strip ([9%N] ++ u "  a b " ++ [10%N]) = u "a b".
Proof. reflexivity. Qed.

Example int_str_samples :
  int_str 0 = u "0" ∧ int_str 3 = u "3" ∧ int_str (-15) = u "-15".
Proof. repeat split; reflexivity. Qed.

Example strftime_sample :
  strftime (u "%Y%m%d_%H%M%S") sample_time = u "20240229_235907".
Proof. reflexivity. Qed.

Example datetime_str_samples :
  datetime_str sample_time = u "2024-02-29 23:59:07.001500" ∧
  datetime_str (mkDatetime 2024 2 29 23 59 7 0) = u "2024-02-29 23:59:07".
Proof. split; reflexivity. Qed.

Example path_str_sample :
  path_str backslash (downloads sample_dir)
  = u "C:" ++ backslash ++ u "ripper" ++ backslash ++ u "Downloads".
Proof. reflexivity. Qed.

Example is_valid_youtube_url_samples :
  is_valid_youtube_url sample_url = true ∧
  is_valid_youtube_url (u "http://youtu.be/x") = true ∧
  is_valid_youtube_url (u "https://m.youtube.com/watch?v=a&t=3") = true ∧
  is_valid_youtube_url (u "https://youtube.com/playlist?list=PL1") = true ∧
  is_valid_youtube_url (u "https://www.youtube.com/watch?v=") = false ∧
  is_valid_youtube_url (u "https://www.youtube.com/watch?v=&a") = false ∧
  is_valid_youtube_url (u "HTTPS://youtu.be/x") = false ∧
  is_valid_youtube_url sample_padded = false.
Proof. repeat split; reflexivity. Qed.

(** A whole run: valid URL as argument, [ffmpeg.exe] in place, an engine
    that reports success. *)
Example main_sample_run :
  let r := main backslash sample_dir (sample_argv [sample_url])
             (sample_engine 0) (sample_world sample_fs_ffmpeg []) in
  r.1 = Ok tt ∧
  trace r.2 =
    [ Mkdir (downloads sample_dir);
      printed (u "Output folder: C:" ++ backslash ++ u "ripper" ++ backslash
               ++ u "Downloads");
      printed (u "Log file: C:" ++ backslash ++ u "ripper" ++ backslash
               ++ u "Downloads" ++ backslash
               ++ u "download_20240229_235907.log");
      printed (check_mark ++ u " Download complete.") ] ∧
  fs r.2 !! downloads sample_dir = Some Dir.
Proof. split; [|split]; vm_compute; reflexivity. Qed.

(** ** The matcher and the words of a pattern *)

Module ReFacts.
Import Re.

Lemma plus_from_spec a s k :
  plus_from a s k = true ↔
  ∃ w s', w ≠ [] ∧ Forall (λ c, atom_ok a c = true) w ∧
          s = w ++ s' ∧ k s' = true.
Proof.
  induction s as [|c s IH]; simpl.
  - split; [done|]. intros (w & s' & Hw & _ & Hs & _).
    destruct w; [done|discriminate].
  - rewrite andb_true_iff, orb_true_iff, IH. split.
    + intros [Hc [(w & s' & _ & Hall & -> & Hk)|Hk]].
      * exists (c :: w), s'. split; [done|]. split; [by constructor|done].
      * exists [c], s. split; [done|]. split; [by repeat constructor|done].
    + intros (w & s' & Hw & Hall & Hs & Hk).
      destruct w as [|c' w]; [done|]. injection Hs as <- ->.
      inversion Hall as [|?? Hc Hall']; subst. split; [done|].
      destruct w as [|c'' w]; [by right|].
      left. by exists (c'' :: w), s'.
Qed.

(** The matcher succeeds exactly when the subject splits into a word of
    the pattern and a rest the continuation accepts. *)
Lemma run_den r : ∀ b s k,
  run r b s k = true ↔
  ∃ w s' b', s = w ++ s' ∧ den r b w b' ∧ k b' s' = true.
Proof.
  induction r as [| |a|r1 IH1 r2 IH2|r IH|a]; intros b s k; simpl.
  - split.
    + intros Hk. by exists [], s, b.
    + by intros (w & s' & b' & -> & [-> ->] & Hk).
  - rewrite andb_true_iff. split.
    + intros [-> Hk]. by exists [], s, true.
    + by intros (w & s' & b' & -> & (-> & -> & ->) & Hk).
  - destruct s as [|c s].
    + split; [done|]. by intros (w & s' & b' & Hs & (c & -> & _) & _).
    + rewrite andb_true_iff. split.
      * intros [Hc Hk]. exists [c], s, false.
        split; [done|]. split; [|done]. by exists c.
      * intros (w & s' & b' & Hs & (c' & -> & Hc & ->) & Hk).
        by injection Hs as -> ->.
  - rewrite IH1. split.
    + intros (w1 & s1 & b1 & -> & H1 & H2). apply IH2 in H2.
      destruct H2 as (w2 & s2 & b2 & -> & H2 & Hk).
      exists (w1 ++ w2), s2, b2. rewrite <- app_assoc.
      split; [done|]. split; [|done]. by exists w1, w2, b1.
    + intros (w & s' & b' & -> & (w1 & w2 & b1 & -> & H1 & H2) & Hk).
      exists w1, (w2 ++ s'), b1. rewrite <- app_assoc.
      split; [done|]. split; [done|]. apply IH2. by exists w2, s', b'.
  - rewrite orb_true_iff, IH. split.
    + intros [(w & s' & b' & -> & Hr & Hk)|Hk].
      * exists w, s', b'. auto.
      * exists [], s, b. auto.
    + intros (w & s' & b' & -> & [Hr|[-> ->]] & Hk).
      * left. by exists w, s', b'.
      * by right.
  - rewrite plus_from_spec. split.
    + intros (w & s' & Hw & Hall & -> & Hk). by exists w, s', false.
    + intros (w & s' & b' & -> & (Hw & Hall & ->) & Hk). by exists w, s'.
Qed.

Lemma match_den p s :
  match_ p s = true ↔ ∃ w s' b', s = w ++ s' ∧ den p true w b'.
Proof.
  unfold match_. rewrite run_den. split.
  - intros (w & s' & b' & Hs & Hw & _). by exists w, s', b'.
  - intros (w & s' & b' & Hs & Hw). by exists w, s', b'.
Qed.

Lemma den_lit w : ∀ b x b',
  den (lit w) b x b' ↔ x = w ∧ b' = (if w is [] then b else false).
Proof.
  induction w as [|c w IH]; intros b x b'; simpl; [done|]. split.
  - intros (w1 & w2 & b1 & -> & (c' & -> & Hc & ->) & H2).
    apply IH in H2 as [-> ->]. apply N.eqb_eq in Hc as ->.
    split; [done|]. by destruct w.
  - intros [-> ->]. exists [c], w, false. split; [done|]. split.
    + exists c. by rewrite N.eqb_refl.
    + apply IH. by destruct w.
Qed.

End ReFacts.

(** ** The URL validator *)

Lemma atom_ok_not_in stop c :
  Re.atom_ok (Re.ANotIn [Re.SChar stop; Re.SSpace]) c = true ↔
  c ≠ stop ∧ Py_UNICODE_ISSPACE c = false.
Proof.
  simpl. rewrite orb_false_r, negb_true_iff, orb_false_iff, N.eqb_neq.
  done.
Qed.

Lemma den_scheme w b' :
  Re.den scheme true w b' ↔
  (∃ sch, is_scheme sch ∧ w = sch ++ u "://") ∧ b' = false.
Proof.
  unfold scheme. cbn [Re.den]. split.
  - intros (w1 & w2 & b1 & -> & (-> & _ & ->) & w3 & w4 & b2 & -> & Hhttp
            & w5 & w6 & b3 & -> & Hs & Hsep).
    apply ReFacts.den_lit in Hhttp as [-> ->].
    apply ReFacts.den_lit in Hsep as [-> ->]. split; [|done].
    destruct Hs as [(c & -> & Hc & ->)|[-> ->]].
    + apply N.eqb_eq in Hc as ->. exists (u "https"). split; [by right|done].
    + exists (u "http"). split; [by left|done].
  - intros [(sch & [-> | ->] & ->) ->].
    + exists [], (u "http://"), true. split; [done|]. split; [done|].
      exists (u "http"), (u "://"), false. split; [done|].
      split; [by apply ReFacts.den_lit|].
      exists [], (u "://"), false. split; [done|]. split; [by right|].
      by apply ReFacts.den_lit.
    + exists [], (u "https://"), true. split; [done|]. split; [done|].
      exists (u "http"), (u "s://"), false. split; [done|].
      split; [by apply ReFacts.den_lit|].
      exists (u "s"), (u "://"), false. split; [done|]. split.
      * left. by exists 115%N.
      * by apply ReFacts.den_lit.
Qed.

Lemma den_pattern sub host_path stop w b' :
  host_path ≠ EmptyString →
  Re.den (pattern sub host_path (Re.ANotIn [Re.SChar stop; Re.SSpace]))
    true w b' ↔
  (∃ sch s id, is_scheme sch ∧ optional sub s ∧ identifier stop id ∧
               w = sch ++ u "://" ++ s ++ u host_path ++ id) ∧ b' = false.
Proof.
  intros Hne. unfold pattern. cbn [Re.den]. split.
  - intros (w1 & w2 & b1 & -> & Hsch & w3 & w4 & b2 & -> & Hsub
            & w5 & w6 & b3 & -> & Hhp & Hid & Hall & ->).
    apply den_scheme in Hsch as [(sch & Hsch & ->) ->].
    apply ReFacts.den_lit in Hhp as [-> ->]. split; [|done].
    exists sch, w3, w6. split; [done|]. split.
    + destruct Hsub as [Hsub|[-> _]]; [|by left].
      apply ReFacts.den_lit in Hsub as [-> _]. by right.
    + split; [|by rewrite <- !app_assoc].
      split; [done|]. eapply Forall_impl; [exact Hall|].
      intros c Hc. by apply atom_ok_not_in.
  - intros [(sch & s & id & Hsch & Hsub & [Hid Hall] & ->) ->].
    exists (sch ++ u "://"), (s ++ u host_path ++ id), false.
    split; [by rewrite <- !app_assoc|].
    split; [apply den_scheme; split; [by exists sch|done]|].
    exists s, (u host_path ++ id), false. split; [done|]. split.
    + destruct Hsub as [-> | ->]; [by right|].
      left. apply ReFacts.den_lit. split; [done|]. by destruct (u sub).
    + exists (u host_path), id, false. split; [done|]. split.
      * apply ReFacts.den_lit. split; [done|].
        destruct host_path; [done|]. done.
      * split; [done|]. split; [|done].
        eapply Forall_impl; [exact Hall|].
        intros c Hc. by apply atom_ok_not_in.
Qed.

Lemma is_valid_has_prefix url :
  is_valid_youtube_url url = true ↔ has_accepted_prefix url.
Proof.
  unfold is_valid_youtube_url, YOUTUBE_PATTERNS, has_accepted_prefix.
  cbn [existsb]. rewrite orb_false_r, !orb_true_iff, !ReFacts.match_den.
  unfold not_amp_space, not_qmark_space. split.
  - intros [H|[H|[H|H]]]; destruct H as (w & rest & b' & -> & H);
      apply den_pattern in H as [(sch & s & id & Hsch & Hs & Hid & ->) _];
      try done; eexists _, rest; (split; [reflexivity|]).
    + by apply standard_watch.
    + by apply playlist.
    + by apply mobile_watch.
    + by apply short_link.
  - intros (p & rest & -> & Hp).
    destruct Hp as [sch s id Hsch Hs Hid|sch s id Hsch Hs Hid
                   |sch s id Hsch Hs Hid|sch s id Hsch Hs Hid].
    + left. eexists _, rest, false. split; [reflexivity|].
      apply den_pattern; [done|]. split; [|done]. by exists sch, s, id.
    + right; left. eexists _, rest, false. split; [reflexivity|].
      apply den_pattern; [done|]. split; [|done]. by exists sch, s, id.
    + right; right; left. eexists _, rest, false. split; [reflexivity|].
      apply den_pattern; [done|]. split; [|done]. by exists sch, s, id.
    + right; right; right. eexists _, rest, false. split; [reflexivity|].
      apply den_pattern; [done|]. split; [|done]. by exists sch, s, id.
Qed.

Lemma is_valid_app p rest :
  is_valid_youtube_url p = true → is_valid_youtube_url (p ++ rest) = true.
Proof.
  rewrite !is_valid_has_prefix. intros (q & r & -> & Hq).
  exists q, (r ++ rest). by rewrite <- app_assoc.
Qed.

(** C1: the validator answers true exactly for the strings that begin with
    one of the four accepted shapes (standard watch, playlist, mobile
    watch, short link, each behind [http://] or [https://]); whatever
    follows an accepted string is accepted as well.  The validator is a
    function of its argument alone. *)
Theorem is_valid_youtube_url_prefix_shape :
  (∀ url, is_valid_youtube_url url = true ↔ has_accepted_prefix url) ∧
  (∀ p rest, is_valid_youtube_url p = true →
             is_valid_youtube_url (p ++ rest) = true).
Proof. split; [apply is_valid_has_prefix|apply is_valid_app]. Qed.

Lemma is_valid_youtube_url_prefix_shape_witness :
  has_accepted_prefix (u "https://youtu.be/abc trailing") ∧
  is_valid_youtube_url (u "https://youtu.be/abc" ++ u " trailing") = true.
Proof.
  split.
  - apply (proj1 is_valid_youtube_url_prefix_shape). reflexivity.
  - apply (proj2 is_valid_youtube_url_prefix_shape). reflexivity.
Defined.

Lemma identifier_sample : ∀ k, identifier (stop_char k) (u "PL123").
Proof.
  intros k. split; [done|].
  destruct k; repeat constructor; done.
Qed.

(** C2, as stated, fails: the playlist shape behind [m.] is rejected, and
    so is the short link behind [m.]. *)
Lemma every_subdomain_everywhere_fails :
  is_valid_youtube_url (u "https://m.youtube.com/playlist?list=PL123") = false
  ∧ is_valid_youtube_url (u "https://m.youtu.be/PL123") = false
  ∧ ¬ every_subdomain_everywhere.
Proof.
  split; [reflexivity|]. split; [reflexivity|].
  intros H.
  specialize (H (u "https") (u "m.") PlaylistList (u "PL123")).
  assert (is_valid_youtube_url
            (url_of (u "https") (u "m.") PlaylistList (u "PL123")) = false)
    as Hf by reflexivity.
  rewrite H in Hf; [discriminate|by right|by right; right|].
  apply identifier_sample.
Qed.

Lemma accepted_shape_starts p :
  accepted_shape p →
  starts_with (u "http://") p ∨ starts_with (u "https://") p.
Proof.
  intros [sch s id [-> | ->] _ _|sch s id [-> | ->] _ _
         |sch s id [-> | ->] _ _|sch s id [-> | ->] _ _];
    (left; eexists; reflexivity) || (right; eexists; reflexivity).
Qed.

Lemma accepted_shape_segment p :
  accepted_shape p → ∃ k, contains (u (required_segment k)) p.
Proof.
  intros [sch s id _ _ _|sch s id _ _ _|sch s id _ _ _|sch s id _ _ _].
  - exists Watch, (sch ++ u "://" ++ s ++ u "youtube.com"), id.
    by rewrite <- !app_assoc.
  - exists PlaylistList, (sch ++ u "://" ++ s ++ u "youtube.com"), id.
    by rewrite <- !app_assoc.
  - exists Watch, (sch ++ u "://" ++ s ++ u "youtube.com"), id.
    by rewrite <- !app_assoc.
  - exists ShortLink, (sch ++ u "://" ++ s), id.
    by rewrite <- !app_assoc.
Qed.

(** C2, amended: each body is accepted behind the subdomain prefixes its
    own patterns allow ([www.] everywhere, [m.] before the watch body
    only), with or without trailing characters; [m.] before the playlist
    or the short-link body is rejected; a string that does not begin with
    [http://] or [https://], or that contains none of the required
    segments, is rejected. *)
Theorem subdomain_tolerance_by_shape :
  (∀ sch sub k id rest,
     is_scheme sch → tolerated k sub → identifier (stop_char k) id →
     is_valid_youtube_url (url_of sch sub k id ++ rest) = true) ∧
  (∀ sch k id rest,
     is_scheme sch → k ≠ Watch →
     is_valid_youtube_url (url_of sch (u "m.") k id ++ rest) = false) ∧
  (∀ url,
     ¬ starts_with (u "http://") url → ¬ starts_with (u "https://") url →
     is_valid_youtube_url url = false) ∧
  (∀ url,
     (∀ k, ¬ contains (u (required_segment k)) url) →
     is_valid_youtube_url url = false).
Proof.
  split; [|split; [|split]].
  - intros sch sub k id rest Hsch Hsub Hid. apply is_valid_app.
    apply is_valid_has_prefix. exists (url_of sch sub k id), [].
    split; [by rewrite app_nil_r|]. unfold url_of.
    destruct Hsub as [-> | [-> | [-> ->]]].
    + destruct k; [apply standard_watch|apply playlist|apply short_link];
        try done; by left.
    + destruct k; [apply standard_watch|apply playlist|apply short_link];
        try done; by right.
    + apply mobile_watch; try done. by right.
  - intros sch k id rest [-> | ->] Hk; destruct k; done.
  - intros url H1 H2. apply not_true_is_false. intros Hv.
    apply is_valid_has_prefix in Hv as (p & rest & -> & Hp).
    destruct (accepted_shape_starts p Hp) as [[r ->]|[r ->]].
    + apply H1. exists (r ++ rest). by rewrite <- app_assoc.
    + apply H2. exists (r ++ rest). by rewrite <- app_assoc.
  - intros url H. apply not_true_is_false. intros Hv.
    apply is_valid_has_prefix in Hv as (p & rest & -> & Hp).
    destruct (accepted_shape_segment p Hp) as (k & a & b & ->).
    apply (H k). exists a, (b ++ rest). by rewrite <- !app_assoc.
Qed.

Lemma subdomain_tolerance_by_shape_witness :
  is_valid_youtube_url
    (url_of (u "https") (u "m.") Watch (u "PL123") ++ u "&t=1") = true ∧
  is_valid_youtube_url
    (url_of (u "http") (u "m.") ShortLink (u "PL123") ++ []) = false ∧
  is_valid_youtube_url (u "ftp://youtu.be/PL123") = false ∧
  is_valid_youtube_url (u "https://www.youtube.com/") = false.
Proof.
  destruct subdomain_tolerance_by_shape as (Hyes & Hno & Hsch & Hseg).
  split; [|split; [|split]].
  - apply Hyes; [by right|by right; right|apply identifier_sample].
  - apply Hno; [by left|done].
  - apply Hsch; intros [r Hr]; discriminate.
  - apply Hseg. intros k (a & b & Hab). revert Hab.
    destruct k; simpl.
    all: repeat (destruct a as [|? a]; [discriminate|]; intros Hab;
                 injection Hab as _ Hab; revert Hab).
    all: destruct a; discriminate.
Defined.

(** ** Sequencing *)

Lemma bind_Ok {A B} (c : M A) (k : A → M B) w a w' :
  c w = (Ok a, w') → bind c k w = k a w'.
Proof. unfold bind. by intros ->. Qed.

Lemma bind_SystemExit {A B} (c : M A) (k : A → M B) w code w' :
  c w = (SystemExit code, w') → bind c k w = (SystemExit code, w').
Proof. unfold bind. by intros ->. Qed.

Lemma bind_Raised {A B} (c : M A) (k : A → M B) w e w' :
  c w = (Raised e, w') → bind c k w = (Raised e, w').
Proof. unfold bind. by intros ->. Qed.

(** ** Reading the URL *)



(** Reading the URL touches the console and nothing else. *)
Lemma read_url_frame argv w r w1 :
  read_url argv w = (r, w1) →
  fs w1 = fs w ∧ open_files w1 = open_files w ∧ clock w1 = clock w ∧
  ticks w1 = ticks w ∧
  ∃ evs, trace w1 = trace w ++ evs ∧ Forall console_only evs.
Proof.
  assert (∀ c : M str,
    c = (line <- input (u "Paste a YouTube URL: ") ;; ret (strip line)) →
    c w = (r, w1) →
    fs w1 = fs w ∧ open_files w1 = open_files w ∧ clock w1 = clock w ∧
    ticks w1 = ticks w ∧
    ∃ evs, trace w1 = trace w ++ evs ∧ Forall console_only evs) as Hprompt.
  { intros c -> H. unfold bind, input, ret in H. simpl in H.
    destruct (stdin w) as [|line rest]; injection H as <- <-; simpl.
    - repeat split. eexists. split; [done|]. by repeat constructor.
    - repeat split. eexists. split; [by rewrite <- app_assoc|].
      by repeat constructor. }
  destruct argv as [|prog [|arg more]]; try (by apply Hprompt).
  simpl. intros H. injection H as <- <-. repeat split.
  exists []. by rewrite app_nil_r.
Qed.

(** ** Rejecting the URL *)

Lemma main_invalid sep script_dir argv yt w url w1 :
  read_url argv w = (Ok url, w1) →
  is_valid_youtube_url url = false →
  main sep script_dir argv yt w =
    (SystemExit 1, emit (printed invalid_message) w1).
Proof.
  intros Hread Hbad. unfold main.
  rewrite (bind_Ok _ _ _ _ _ Hread), Hbad. reflexivity.
Qed.

(** C3: when the URL read fails validation, the script prints the error
    line and ends with exit status 1; whatever the engine is, the run is
    the same; the file system and the open files are as before, the clock
    was not read, and the run added console events only (no directory
    made, no file opened or written). *)
Theorem invalid_url_exits_before_any_effect
    sep script_dir argv w url w1 :
  read_url argv w = (Ok url, w1) →
  is_valid_youtube_url url = false →
  ∃ w',
    (∀ yt, main sep script_dir argv yt w = (SystemExit 1, w') ∧
           exit_status (main sep script_dir argv yt w).1 = 1) ∧
    fs w' = fs w ∧ open_files w' = open_files w ∧ ticks w' = ticks w ∧
    ∃ evs, trace w' = trace w ++ evs ++ [printed invalid_message] ∧
           Forall console_only evs.
Proof.
  intros Hread Hbad.
  destruct (read_url_frame _ _ _ _ Hread)
    as (Hfs & Hopen & _ & Hticks & evs & Htrace & Hevs).
  exists (emit (printed invalid_message) w1). split.
  - intros yt. by rewrite (main_invalid _ _ _ _ _ url w1).
  - simpl. repeat split; try done.
    exists evs. by rewrite Htrace, <- app_assoc.
Qed.

Lemma invalid_url_exits_before_any_effect_witness :
  exit_status
    (main backslash sample_dir (sample_argv [u "youtube.com/watch?v=abc123"])
       (sample_engine 0) (sample_world sample_fs [])).1 = 1.
Proof.
  destruct (invalid_url_exits_before_any_effect backslash sample_dir
              (sample_argv [u "youtube.com/watch?v=abc123"])
              (sample_world sample_fs [])
              (u "youtube.com/watch?v=abc123")
              (sample_world sample_fs []))
    as (w' & Hmain & _); [reflexivity|reflexivity|].
  exact (proj2 (Hmain (sample_engine 0))).
Defined.

(** ** Making the folder *)

Lemma os_mkdir_inr p f f' : os_mkdir p f = inr f' → f' = <[p := Dir]> f.
Proof.
  unfold os_mkdir. destruct (f !! p); [done|].
  destruct (f !! parent p) as [[|c]|]; [|done|done]. by intros [= <-].
Qed.

Lemma is_dir_true p f : is_dir p f = true → f !! p = Some Dir.
Proof. unfold is_dir. by destruct (f !! p) as [[|c]|]. Qed.

(** Only the path and its ancestors can be made. *)
Lemma mkdir_p_frame a rp : ∀ f f',
  mkdir_p a rp f = inr f' →
  ∀ q, (∀ s, s `suffix_of` rp → q ≠ mkPath a (rev s)) → f' !! q = f !! q.
Proof.
  induction rp as [|c up IH]; intros f f'; cbn [mkdir_p].
  - destruct (os_mkdir (mkPath a (rev [])) f) as [e|f1] eqn:Hmk.
    + destruct (is_FileNotFoundError e); [done|].
      destruct (is_dir _ f); [|done]. by intros [= <-].
    + intros [= <-] q Hq. apply os_mkdir_inr in Hmk as ->.
      apply lookup_insert_ne. intros <-. by apply (Hq []).
  - destruct (os_mkdir (mkPath a (rev (c :: up))) f) as [e|f1] eqn:Hmk.
    + destruct (is_FileNotFoundError e).
      * destruct (mkdir_p a up f) as [e'|f1] eqn:Hup; [done|].
        intros H q Hq.
        assert (f1 !! q = f !! q) as <-.
        { apply (IH _ _ Hup). intros s Hs. apply Hq. by apply suffix_cons_r. }
        destruct (os_mkdir (mkPath a (rev (c :: up))) f1) as [e'|f2] eqn:Hmk2.
        -- destruct (is_dir _ f1); [|done]. by injection H as <-.
        -- injection H as <-. apply os_mkdir_inr in Hmk2 as ->.
           apply lookup_insert_ne. intros <-. by apply (Hq (c :: up)).
      * destruct (is_dir _ f); [|done]. by intros [= <-].
    + intros [= <-] q Hq. apply os_mkdir_inr in Hmk as ->.
      apply lookup_insert_ne. intros <-. by apply (Hq (c :: up)).
Qed.

(** When it returns, the directory is there. *)
Lemma mkdir_p_is_dir a rp f f' :
  mkdir_p a rp f = inr f' → f' !! mkPath a (rev rp) = Some Dir.
Proof.
  destruct rp as [|c up]; cbn [mkdir_p].
  - destruct (os_mkdir (mkPath a (rev [])) f) as [e|f1] eqn:Hmk.
    + destruct (is_FileNotFoundError e); [done|].
      destruct (is_dir _ f) eqn:Hd; [|done]. intros [= <-].
      by apply is_dir_true.
    + intros [= <-]. apply os_mkdir_inr in Hmk as ->.
      apply lookup_insert_eq.
  - destruct (os_mkdir (mkPath a (rev (c :: up))) f) as [e|f1] eqn:Hmk.
    + destruct (is_FileNotFoundError e).
      * destruct (mkdir_p a up f) as [e'|f1]; [done|].
        destruct (os_mkdir (mkPath a (rev (c :: up))) f1) as [e'|f2] eqn:Hmk2.
        -- destruct (is_dir _ f1) eqn:Hd; [|done]. intros [= <-].
           by apply is_dir_true.
        -- intros [= <-]. apply os_mkdir_inr in Hmk2 as ->.
           apply lookup_insert_eq.
      * destruct (is_dir _ f) eqn:Hd; [|done]. intros [= <-].
        by apply is_dir_true.
    + intros [= <-]. apply os_mkdir_inr in Hmk as ->.
      apply lookup_insert_eq.
Qed.

Lemma mkdir_gives_is_dir p f f' : mkdir_gives p f f' → f' !! p = Some Dir.
Proof.
  intros H. apply mkdir_p_is_dir in H. rewrite rev_involutive in H.
  by destruct p.
Qed.

(** Making the folder leaves every sibling of it as it was. *)
Lemma mkdir_gives_sibling script_dir x y f f' :
  x ≠ y →
  mkdir_gives (script_dir </> x) f f' →
  f' !! (script_dir </> y) = f !! (script_dir </> y).
Proof.
  intros Hxy H. unfold mkdir_gives in H. simpl in H.
  rewrite rev_unit in H. apply (mkdir_p_frame _ _ _ _ H).
  intros s Hs [= Heq]. apply (f_equal (@rev str)) in Heq.
  rewrite rev_unit, rev_involutive in Heq. subst s.
  apply suffix_cons_inv in Hs as [[= ?]|Hs]; [done|].
  apply suffix_length in Hs. simpl in Hs. lia.
Qed.

(** ** Steps of [main] *)

Lemma bind_ret {A B} (a : A) (k : A → M B) w : bind (ret a) k w = k a w.
Proof. reflexivity. Qed.

Lemma print_run line w : print line w = (Ok tt, emit (printed line) w).
Proof. reflexivity. Qed.

Lemma get_download_folder_run script_dir w f' :
  mkdir_gives (downloads script_dir) (fs w) f' →
  get_download_folder script_dir w =
    (Ok (downloads script_dir),
     set_fs f' (emit (Mkdir (downloads script_dir)) w)).
Proof.
  intros H. unfold get_download_folder, bind, Path_mkdir.
  fold (downloads script_dir). cbn [fs emit]. unfold mkdir_gives in H.
  by rewrite H.
Qed.

Lemma get_download_folder_raises script_dir w e :
  mkdir_p (anchor (downloads script_dir))
    (rev (parts (downloads script_dir))) (fs w) = inl e →
  get_download_folder script_dir w =
    (Raised e, emit (Mkdir (downloads script_dir)) w).
Proof.
  intros H. unfold get_download_folder, bind, Path_mkdir.
  fold (downloads script_dir). cbn [fs emit]. by rewrite H.
Qed.

Lemma make_log_file_run outdir w :
  make_log_file outdir w = (Ok (log_path outdir (clock w (ticks w))), tick w).
Proof. reflexivity. Qed.

Lemma getitem_Some d k v w : d !! k = Some v → getitem d k w = (Ok v, w).
Proof. unfold getitem. by intros ->. Qed.

Lemma join_snoc sep l x : l ≠ [] → join sep (l ++ [x]) = join sep l ++ sep ++ x.
Proof.
  induction l as [|y l IH]; [done|]. intros _. destruct l as [|z l]; [done|].
  change (y ++ sep ++ join sep ((z :: l) ++ [x])
          = (y ++ sep ++ join sep (z :: l)) ++ sep ++ x).
  rewrite IH by done. by rewrite <- !app_assoc.
Qed.

Lemma path_str_joinpath sep p x :
  parts p ≠ [] → path_str sep (p </> x) = path_str sep p ++ sep ++ x.
Proof.
  intros H. unfold path_str, joinpath. simpl.
  rewrite join_snoc by done. by rewrite <- !app_assoc.
Qed.

Lemma ydl_opts_run sep script_dir w :
  ydl_opts sep (downloads script_dir) (ffmpeg script_dir) w =
    (Ok (expected_opts sep (downloads script_dir) (ffmpeg script_dir)), w).
Proof.
  unfold ydl_opts.
  repeat (erewrite bind_Ok by (apply getitem_Some; reflexivity); cbv beta).
  unfold ret, expected_opts.
  rewrite !path_str_joinpath.
  - rewrite <- !app_assoc. reflexivity.
  - unfold downloads, joinpath. simpl. by destruct (parts script_dir).
  - unfold downloads, joinpath. simpl. by destruct (parts script_dir).
Qed.

(** Up to the two announcements. *)
Lemma main_announced sep script_dir argv yt w url w1 f' :
  read_url argv w = (Ok url, w1) →
  is_valid_youtube_url url = true →
  mkdir_gives (downloads script_dir) (fs w) f' →
  main sep script_dir argv yt w =
    (present <- Path_exists (ffmpeg script_dir) ;;
     (if negb present then
        print (missing_message sep script_dir) ;;; sys_exit 1
      else ret tt) ;;;
     opts <- ydl_opts sep (downloads script_dir) (ffmpeg script_dir) ;;
     result <- yt (<[u "logger" :=
                       VLogger (mkFileLogger
                                  (log_path (downloads script_dir)
                                     (clock w1 (ticks w1))))]> opts) [url] ;;
     if result =? 0 then print complete_message
     else print (failed_message result))
      (announced sep script_dir f' w1).
Proof.
  intros Hread Hvalid Hmk.
  destruct (read_url_frame _ _ _ _ Hread) as (Hfs & _).
  rewrite <- Hfs in Hmk. unfold main.
  rewrite (bind_Ok _ _ _ _ _ Hread), Hvalid. cbn [negb].
  rewrite bind_ret.
  rewrite (bind_Ok _ _ _ _ _ (get_download_folder_run _ _ _ Hmk)).
  rewrite (bind_Ok _ _ _ _ _ (make_log_file_run _ _)).
  rewrite (bind_Ok _ _ _ _ _ (print_run _ _)).
  rewrite (bind_Ok _ _ _ _ _ (print_run _ _)).
  reflexivity.
Qed.

Lemma main_mkdir_raises sep script_dir argv yt w url w1 e :
  read_url argv w = (Ok url, w1) →
  is_valid_youtube_url url = true →
  mkdir_p (anchor (downloads script_dir))
    (rev (parts (downloads script_dir))) (fs w) = inl e →
  main sep script_dir argv yt w =
    (Raised e, emit (Mkdir (downloads script_dir)) w1).
Proof.
  intros Hread Hvalid Hmk.
  destruct (read_url_frame _ _ _ _ Hread) as (Hfs & _).
  rewrite <- Hfs in Hmk. unfold main.
  rewrite (bind_Ok _ _ _ _ _ Hread), Hvalid. cbn [negb].
  rewrite bind_ret.
  by rewrite (bind_Raised _ _ _ _ _ (get_download_folder_raises _ _ _ Hmk)).
Qed.

Lemma main_missing sep script_dir argv yt w url w1 f' :
  read_url argv w = (Ok url, w1) →
  is_valid_youtube_url url = true →
  mkdir_gives (downloads script_dir) (fs w) f' →
  fs w !! ffmpeg script_dir = None →
  main sep script_dir argv yt w =
    (SystemExit 1,
     emit (printed (missing_message sep script_dir))
       (announced sep script_dir f' w1)).
Proof.
  intros Hread Hvalid Hmk Hnone.
  rewrite (main_announced _ _ _ _ _ _ _ _ Hread Hvalid Hmk).
  assert (f' !! ffmpeg script_dir = None) as Hnone'.
  { rewrite <- Hnone. by apply (mkdir_gives_sibling _ (u "Downloads")). }
  unfold bind at 1. unfold Path_exists. cbn [fs announced emit tick set_fs].
  rewrite Hnone'. rewrite bool_decide_false by (by intros [? ?]).
  reflexivity.
Qed.

Lemma main_to_engine sep script_dir argv yt w url w1 f' :
  read_url argv w = (Ok url, w1) →
  is_valid_youtube_url url = true →
  mkdir_gives (downloads script_dir) (fs w) f' →
  is_Some (fs w !! ffmpeg script_dir) →
  main sep script_dir argv yt w =
    (result <- yt (passed_opts sep script_dir (clock w1 (ticks w1))) [url] ;;
     if result =? 0 then print complete_message
     else print (failed_message result))
      (announced sep script_dir f' w1).
Proof.
  intros Hread Hvalid Hmk Hsome.
  rewrite (main_announced _ _ _ _ _ _ _ _ Hread Hvalid Hmk).
  assert (is_Some (f' !! ffmpeg script_dir)) as Hsome'.
  { unfold ffmpeg.
    by rewrite (mkdir_gives_sibling _ (u "Downloads") (u "ffmpeg.exe") _ _
                  ltac:(done) Hmk). }
  unfold bind at 1. unfold Path_exists. cbn [fs announced emit tick set_fs].
  rewrite bool_decide_true by done. cbn [negb].
  rewrite bind_ret.
  rewrite (bind_Ok _ _ _ _ _ (ydl_opts_run _ _ _)).
  reflexivity.
Qed.

(** ** The configuration *)

(** C6: the record [main] assembles holds the format selector
    [bv*+ba/best], the container [mp4], 10 retries and 10 fragment retries,
    [nooverwrites] and [continuedl] as the negations of the constants
    [force_overwrites] and [no_continue] (so both false), the four
    thumbnail, metadata and file name switches true, the path of
    [ffmpeg.exe] next to the script, and an output template that puts each
    video in a folder named by its title, under [Downloads], in a file
    named by its title; with the logger of the run put in, this is the
    record the engine is called with. *)
Theorem download_configuration_values sep script_dir :
  (∀ w, ∃ d,
     ydl_opts sep (downloads script_dir) (ffmpeg script_dir) w = (Ok d, w) ∧
     ∀ t, passed_opts sep script_dir t =
          <[u "logger" :=
              VLogger (mkFileLogger (log_path (downloads script_dir) t))]> d) ∧
  (∀ t,
     let d := passed_opts sep script_dir t in
     d !! u "format" = Some (VStr (u "bv*+ba/best")) ∧
     d !! u "merge_output_format" = Some (VStr (u "mp4")) ∧
     d !! u "retries" = Some (VInt 10) ∧
     d !! u "fragment_retries" = Some (VInt 10) ∧
     d !! u "nooverwrites" = py_not <$> SETTINGS !! u "force_overwrites" ∧
     d !! u "nooverwrites" = Some (VBool false) ∧
     d !! u "continuedl" = py_not <$> SETTINGS !! u "no_continue" ∧
     d !! u "continuedl" = Some (VBool false) ∧
     d !! u "writethumbnail" = Some (VBool true) ∧
     d !! u "writeinfojson" = Some (VBool true) ∧
     d !! u "embedthumbnail" = Some (VBool true) ∧
     d !! u "restrictfilenames" = Some (VBool true) ∧
     d !! u "ffmpeg_location" =
       Some (VStr (path_str sep (script_dir </> u "ffmpeg.exe"))) ∧
     d !! u "outtmpl" =
       Some (VStr (path_str sep (script_dir </> u "Downloads"
                                 </> u "%(title)s"
                                 </> u "%(title)s.%(ext)s")))) ∧
  (∀ argv yt w url w1 f',
     read_url argv w = (Ok url, w1) →
     is_valid_youtube_url url = true →
     mkdir_gives (downloads script_dir) (fs w) f' →
     is_Some (fs w !! ffmpeg script_dir) →
     main sep script_dir argv yt w =
       (result <- yt (passed_opts sep script_dir (clock w1 (ticks w1))) [url] ;;
        if result =? 0 then print complete_message
        else print (failed_message result))
         (announced sep script_dir f' w1)).
Proof.
  split; [|split].
  - intros w. eexists. split; [apply ydl_opts_run|done].
  - intros t d.
    assert (path_str sep (script_dir </> u "Downloads" </> u "%(title)s"
                          </> u "%(title)s.%(ext)s")
            = path_str sep (downloads script_dir) ++ sep ++ u "%(title)s"
              ++ sep ++ u "%(title)s.%(ext)s") as ->.
    { fold (downloads script_dir). rewrite !path_str_joinpath.
      - by rewrite <- !app_assoc.
      - simpl. by destruct (parts script_dir).
      - simpl. by destruct (parts script_dir). }
    repeat split; reflexivity.
  - intros argv yt w url w1 f'. apply main_to_engine.
Qed.

(** C10: [ignoreerrors] is true in [SETTINGS], in the record [main]
    assembles from it, and in the record the engine is called with. *)
Theorem ignoreerrors_always_true sep script_dir :
  SETTINGS !! u "ignoreerrors" = Some (VBool true) ∧
  (∀ w, ∃ d,
     ydl_opts sep (downloads script_dir) (ffmpeg script_dir) w = (Ok d, w) ∧
     d !! u "ignoreerrors" = SETTINGS !! u "ignoreerrors" ∧
     ∀ t, passed_opts sep script_dir t =
          <[u "logger" :=
              VLogger (mkFileLogger (log_path (downloads script_dir) t))]> d) ∧
  (∀ t, passed_opts sep script_dir t !! u "ignoreerrors" = Some (VBool true)) ∧
  (∀ argv yt w url w1 f',
     read_url argv w = (Ok url, w1) →
     is_valid_youtube_url url = true →
     mkdir_gives (downloads script_dir) (fs w) f' →
     is_Some (fs w !! ffmpeg script_dir) →
     main sep script_dir argv yt w =
       (result <- yt (passed_opts sep script_dir (clock w1 (ticks w1))) [url] ;;
        if result =? 0 then print complete_message
        else print (failed_message result))
         (announced sep script_dir f' w1)).
Proof.
  split; [reflexivity|]. split; [|split].
  - intros w. eexists. split; [apply ydl_opts_run|]. split; [reflexivity|done].
  - intros t. reflexivity.
  - intros argv yt w url w1 f'. apply main_to_engine.
Qed.

(** ** The log file *)

Lemma length_zpad n : ∀ z, length (zpad n z) = n.
Proof.
  induction n as [|n IH]; intros z; simpl; [done|].
  rewrite length_app, IH. simpl. lia.
Qed.

Lemma dec_value_snoc s c :
  dec_value (s ++ [c]) = dec_value s * 10 + (Z.of_N c - 48).
Proof. unfold dec_value. by rewrite fold_left_app. Qed.

(** The digits of [zpad] read back as the number they were made from. *)
Lemma dec_value_zpad n : ∀ z, 0 <= z < 10 ^ Z.of_nat n → dec_value (zpad n z) = z.
Proof.
  induction n as [|n IH]; intros z Hz.
  - simpl in *. unfold dec_value. simpl. lia.
  - rewrite Nat2Z.inj_succ, Z.pow_succ_r in Hz by lia.
    cbn [zpad]. rewrite dec_value_snoc, IH.
    + unfold digit. rewrite N2Z.inj_add, Z2N.id.
      * pose proof (Z.div_mod z 10). lia.
      * apply Z.mod_pos_bound. lia.
    + split; [apply Z.div_pos; lia|]. apply Z.div_lt_upper_bound; lia.
Qed.

Lemma zpad_inj n a b :
  0 <= a < 10 ^ Z.of_nat n → 0 <= b < 10 ^ Z.of_nat n →
  zpad n a = zpad n b → a = b.
Proof.
  intros Ha Hb H. rewrite <- (dec_value_zpad n a), <- (dec_value_zpad n b) by done.
  by rewrite H.
Qed.

Lemma stamp_inj t1 t2 :
  wf_datetime t1 → wf_datetime t2 → stamp t1 = stamp t2 → same_second t1 t2.
Proof.
  intros (Hy1 & Hm1 & Hd1 & HH1 & HM1 & HS1 & _)
         (Hy2 & Hm2 & Hd2 & HH2 & HM2 & HS2 & _) H.
  unfold stamp in H.
  apply app_inj_1 in H as [Hy H]; [|by rewrite !length_zpad].
  apply app_inj_1 in H as [Hm H]; [|by rewrite !length_zpad].
  apply app_inj_1 in H as [Hd H]; [|by rewrite !length_zpad].
  apply app_inj_1 in H as [_ H]; [|done].
  apply app_inj_1 in H as [HH H]; [|by rewrite !length_zpad].
  apply app_inj_1 in H as [HM HS]; [|by rewrite !length_zpad].
  repeat split; (eapply zpad_inj; [| |eassumption]); simpl; lia.
Qed.

Lemma parent_joinpath p x : parent (p </> x) = p.
Proof.
  unfold parent, joinpath. simpl. rewrite removelast_last. by destruct p.
Qed.

Lemma name_joinpath p x : name (p </> x) = x.
Proof. unfold name, joinpath. simpl. apply last_last. Qed.

(** C7: [make_log_file] reads the clock once and answers the path, directly
    inside the output directory, whose name is [download_], the instant
    read as [YYYYMMDD_HHMMSS] in zero-padded decimal, and [.log]; two
    instants give the same path exactly when they agree up to the second. *)
Theorem make_log_file_names_by_second outdir :
  (∀ w, make_log_file outdir w =
          (Ok (log_path outdir (clock w (ticks w))), tick w)) ∧
  (∀ t, parent (log_path outdir t) = outdir ∧
        name (log_path outdir t) =
          u "download_" ++ zpad 4 (year t) ++ zpad 2 (month t)
          ++ zpad 2 (day t) ++ u "_" ++ zpad 2 (hour t)
          ++ zpad 2 (minute t) ++ zpad 2 (second t) ++ u ".log") ∧
  (∀ n z, 0 <= z < 10 ^ Z.of_nat n →
          length (zpad n z) = n ∧ dec_value (zpad n z) = z) ∧
  (∀ t1 t2, wf_datetime t1 → wf_datetime t2 →
            (log_path outdir t1 = log_path outdir t2 ↔ same_second t1 t2)).
Proof.
  split; [intros w; apply make_log_file_run|].
  split; [|split].
  - intros t. split; [apply parent_joinpath|].
    unfold log_path. rewrite name_joinpath. unfold stamp.
    by rewrite <- !app_assoc.
  - intros n z Hz. split; [apply length_zpad|by apply dec_value_zpad].
  - intros t1 t2 Hwf1 Hwf2. split.
    + intros H. apply (f_equal name) in H. unfold log_path in H.
      rewrite !name_joinpath in H.
      apply app_inv_head, app_inv_tail in H. by apply stamp_inj.
    + intros (Hy & Hm & Hd & HH & HM & HS). unfold log_path, stamp.
      by rewrite Hy, Hm, Hd, HH, HM, HS.
Qed.

Lemma make_log_file_names_by_second_witness :
  name (log_path (downloads sample_dir) sample_time)
    = u "download_20240229_235907.log" ∧
  dec_value (zpad 4 2024) = 2024 ∧
  (log_path (downloads sample_dir) sample_time
   = log_path (downloads sample_dir) (mkDatetime 2024 2 29 23 59 7 0)).
Proof.
  destruct (make_log_file_names_by_second (downloads sample_dir))
    as (_ & Hname & Hpad & Hsame).
  split; [|split].
  - by rewrite (proj2 (Hname sample_time)).
  - apply (Hpad 4%nat 2024). simpl. lia.
  - apply Hsame; unfold wf_datetime, same_second; simpl; lia.
Defined.

(** ** The logger *)

Lemma remove_first_head h l : remove_first h (h :: l) = l.
Proof. simpl. by rewrite bool_decide_true. Qed.

Lemma with_open_append_write p text c w :
  appendable p (fs w) c →
  with_open_append p (λ f, file_write f text) w =
    (Ok tt,
     mkWorld (<[p := File (c ++ text)]> (fs w)) (open_files w) (stdin w)
       (clock w) (ticks w)
       (trace w ++ [FileOpen p; FileWrite p text; FileClose p])).
Proof.
  intros Happ. unfold with_open_append, open_append.
  destruct Happ as [Hfile|(Hnone & Hdir & ->)].
  - rewrite Hfile. unfold file_write, emit, set_open_files, set_fs.
    cbn [fs open_files stdin clock ticks trace].
    rewrite Hfile, bool_decide_true by apply list_elem_of_here.
    unfold file_close, emit, set_open_files.
    cbn [fs open_files stdin clock ticks trace snd].
    by rewrite remove_first_head, <- !app_assoc.
  - rewrite Hnone, Hdir.
    unfold file_write, emit, set_open_files, set_fs.
    cbn [fs open_files stdin clock ticks trace].
    rewrite lookup_insert_eq, bool_decide_true by apply list_elem_of_here.
    unfold file_close, emit, set_open_files.
    cbn [fs open_files stdin clock ticks trace snd].
    by rewrite remove_first_head, insert_insert_eq, <- !app_assoc.
Qed.

Lemma FileLogger__write_run self tag msg c w :
  appendable (logfile self) (fs w) c →
  FileLogger__write self tag msg w = (Ok tt, logged tag self msg c w).
Proof.
  intros Happ. unfold FileLogger__write.
  rewrite (bind_Ok _ _ _ _ _ (eq_refl : now w = (Ok _, tick w))).
  fold (log_line (clock w (ticks w)) tag msg).
  rewrite (bind_Ok _ _ _ _ _ (print_run _ _)).
  rewrite (with_open_append_write _ _ c) by done.
  unfold logged, emit, tick, printed.
  cbn [fs open_files stdin clock ticks trace].
  by rewrite <- !app_assoc.
Qed.

(** ** Where the URL comes from *)



(** ** Sample runs *)

Lemma sample_mkdir_gives f :
  f !! downloads sample_dir = None → f !! sample_dir = Some Dir →
  mkdir_gives (downloads sample_dir) f (<[downloads sample_dir := Dir]> f).
Proof.
  intros Hnone Hdir. unfold mkdir_gives. cbn [mkdir_p downloads joinpath
    anchor parts sample_dir app rev]. unfold os_mkdir.
  change (mkPath (u "C:" ++ backslash) [u "ripper"; u "Downloads"])
    with (downloads sample_dir).
  rewrite Hnone.
  change (parent (downloads sample_dir)) with sample_dir.
  by rewrite Hdir.
Qed.

Lemma sample_ffmpeg_present :
  is_Some (sample_fs_ffmpeg !! ffmpeg sample_dir).
Proof. unfold sample_fs_ffmpeg. rewrite lookup_insert_eq. by eexists. Qed.

Lemma download_configuration_values_witness :
  main backslash sample_dir (sample_argv [sample_url]) (sample_engine 0)
    (sample_world sample_fs_ffmpeg []) =
  (result <- sample_engine 0
               (passed_opts backslash sample_dir
                  (clock (sample_world sample_fs_ffmpeg [])
                     (ticks (sample_world sample_fs_ffmpeg []))))
               [sample_url] ;;
   if result =? 0 then print complete_message
   else print (failed_message result))
    (announced backslash sample_dir
       (<[downloads sample_dir := Dir]> sample_fs_ffmpeg)
       (sample_world sample_fs_ffmpeg [])).
Proof.
  apply (proj2 (proj2 (download_configuration_values backslash sample_dir))).
  - reflexivity.
  - reflexivity.
  - apply sample_mkdir_gives; by vm_compute.
  - exact sample_ffmpeg_present.
Defined.

Lemma ignoreerrors_always_true_witness :
  main backslash sample_dir (sample_argv [sample_url]) (sample_engine 1)
    (sample_world sample_fs_ffmpeg []) =
  (result <- sample_engine 1
               (passed_opts backslash sample_dir
                  (clock (sample_world sample_fs_ffmpeg [])
                     (ticks (sample_world sample_fs_ffmpeg []))))
               [sample_url] ;;
   if result =? 0 then print complete_message
   else print (failed_message result))
    (announced backslash sample_dir
       (<[downloads sample_dir := Dir]> sample_fs_ffmpeg)
       (sample_world sample_fs_ffmpeg [])).
Proof.
  apply (proj2 (proj2 (proj2 (ignoreerrors_always_true backslash sample_dir)))).
  - reflexivity.
  - reflexivity.
  - apply sample_mkdir_gives; by vm_compute.
  - exact sample_ffmpeg_present.
Defined.

(** ** Texts read back *)

Lemma join_parts_text sep l : join sep l = parts_text sep l.
Proof.
  induction l as [|x l IH]; [done|]. destruct l as [|y l]; simpl.
  - by rewrite app_nil_r.
  - simpl in IH. rewrite IH. by rewrite <- !app_assoc.
Qed.

Lemma path_str_spelled sep p :
  path_str sep p = anchor p ++ parts_text sep (parts p).
Proof. unfold path_str. by rewrite join_parts_text. Qed.

Lemma zpad_digits n : ∀ z, Forall is_digit (zpad n z).
Proof.
  induction n as [|n IH]; intros z; cbn [zpad]; [constructor|].
  apply Forall_app. split; [apply IH|]. apply Forall_singleton.
  unfold is_digit, digit. pose proof (Z.mod_pos_bound z 10 ltac:(lia)). lia.
Qed.

Lemma zpad_decimal n z : 0 <= z < 10 ^ Z.of_nat n → decimal n z (zpad n z).
Proof.
  intros Hz. split; [apply length_zpad|].
  split; [apply zpad_digits|by apply dec_value_zpad].
Qed.

Lemma datetime_str_reads t :
  wf_datetime t → timestamp_text t (datetime_str t).
Proof.
  intros (Hy & Hm & Hd & HH & HM & HS & Hus). unfold datetime_str.
  exists (zpad 4 (year t)), (zpad 2 (month t)), (zpad 2 (day t)),
    (zpad 2 (hour t)), (zpad 2 (minute t)), (zpad 2 (second t)),
    (if microsecond t =? 0 then [] else u "." ++ zpad 6 (microsecond t)).
  split; [done|].
  repeat (split; [apply zpad_decimal; simpl; lia|]).
  destruct (Z.eqb_spec (microsecond t) 0) as [H0|Hn0]; [by left|right].
  split; [done|]. eexists. split; [done|]. apply zpad_decimal. simpl. lia.
Qed.

Lemma string_of_uint_digits d :
  Forall is_digit (u (NilEmpty.string_of_uint d)).
Proof.
  induction d; simpl; constructor; try done; unfold is_digit; lia.
Qed.

Lemma dec_fold_uint_acc d : ∀ acc,
  fold_left (λ a c, a * 10 + (Z.of_N c - 48))
    (u (NilEmpty.string_of_uint d)) (Z.pos acc)
  = Z.pos (Pos.of_uint_acc d acc).
Proof.
  induction d as [|d IH|d IH|d IH|d IH|d IH|d IH|d IH|d IH|d IH|d IH];
    intros acc; [done|..];
    cbn [NilEmpty.string_of_uint u fold_left Pos.of_uint_acc];
    rewrite <- IH; f_equal; vm_compute (N_of_ascii _); lia.
Qed.

Lemma dec_value_uint d :
  dec_value (u (NilEmpty.string_of_uint d)) = Z.of_N (Pos.of_uint d).
Proof.
  unfold dec_value.
  induction d as [|d IH|d IH|d IH|d IH|d IH|d IH|d IH|d IH|d IH|d IH];
    [done|exact IH|..];
    cbn [NilEmpty.string_of_uint u fold_left Pos.of_uint N_of_ascii];
    apply (dec_fold_uint_acc d).
Qed.

Lemma dec_value_to_uint p :
  let s := u (NilZero.string_of_uint (Pos.to_uint p)) in
  s ≠ [] ∧ Forall is_digit s ∧ dec_value s = Z.pos p.
Proof.
  assert (NilZero.string_of_uint (Pos.to_uint p)
          = NilEmpty.string_of_uint (Pos.to_uint p)) as ->.
  { pose proof (DecimalPos.Unsigned.to_uint_nonnil p).
    unfold NilZero.string_of_uint. by destruct (Pos.to_uint p). }
  assert (dec_value (u (NilEmpty.string_of_uint (Pos.to_uint p))) = Z.pos p)
    as Hval by (by rewrite dec_value_uint, DecimalPos.Unsigned.of_to).
  split; [|split; [apply string_of_uint_digits|done]].
  intros Hnil. by rewrite Hnil in Hval.
Qed.

(** [int_str] writes its argument in decimal. *)
Lemma int_str_text z : int_text z (int_str z).
Proof.
  unfold int_str. destruct z as [|p|p].
  - left. vm_compute (u _). split; [done|]. split; [done|]. split; [|done].
    apply Forall_singleton. unfold is_digit. lia.
  - left. split; [lia|]. apply dec_value_to_uint.
  - right. split; [lia|]. eexists. split; [reflexivity|].
    apply dec_value_to_uint.
Qed.

(** ** Ending before the engine, or after it *)

(** C4, as stated, fails: with a regular file named [Downloads] next to
    the script, a valid URL and no [ffmpeg.exe], the run ends in
    [FileExistsError] where it tries to make the folder; it prints
    nothing, so no line names the place of [ffmpeg.exe]. *)
Lemma missing_binary_without_diagnostic :
  let w := sample_world (<[downloads sample_dir := File []]> sample_fs) [] in
  let r := main backslash sample_dir (sample_argv [sample_url])
             (sample_engine 0) w in
  is_valid_youtube_url sample_url = true ∧
  fs w !! ffmpeg sample_dir = None ∧
  r.1 = Raised FileExistsError ∧
  trace r.2 = [Mkdir (downloads sample_dir)] ∧
  stdout_text (trace r.2) = [].
Proof. split; [|split; [|split; [|split]]]; vm_compute; reflexivity. Qed.

(** C4, amended: with a valid URL and no [ffmpeg.exe] next to the script,
    every run ends with exit status 1 and is the same whatever the engine
    is.  When making the folder returns (it was there, or could be made),
    the run ends by [sys.exit(1)]; the folder was made first, then the two
    announcements were printed, and the last line printed names the
    script's directory, component by component, as the place where
    [ffmpeg.exe] is expected; [Downloads] exists by then. *)
Theorem missing_binary_exits_before_engine
    sep script_dir argv w url w1 :
  read_url argv w = (Ok url, w1) →
  is_valid_youtube_url url = true →
  fs w !! ffmpeg script_dir = None →
  (∃ r w', (∀ yt, main sep script_dir argv yt w = (r, w')) ∧
           exit_status r = 1) ∧
  (∀ f',
     mkdir_gives (downloads script_dir) (fs w) f' →
     (∀ yt,
        main sep script_dir argv yt w =
          (SystemExit 1,
           mkWorld f' (open_files w1) (stdin w1) (clock w1) (S (ticks w1))
             (trace w1 ++
              [ Mkdir (script_dir </> u "Downloads");
                Stdout (u "Output folder: " ++ anchor script_dir
                        ++ parts_text sep (parts script_dir ++ [u "Downloads"])
                        ++ [10%N]);
                Stdout (u "Log file: " ++ anchor script_dir
                        ++ parts_text sep
                             (parts script_dir
                              ++ [ u "Downloads";
                                   u "download_"
                                   ++ stamp (clock w1 (ticks w1))
                                   ++ u ".log" ])
                        ++ [10%N]);
                Stdout ([9888%N; 65039%N] ++ u " ffmpeg.exe not found in "
                        ++ anchor script_dir
                        ++ parts_text sep (parts script_dir)
                        ++ u ". Please place ffmpeg.exe next to this script."
                        ++ [10%N]) ]))) ∧
     f' !! (script_dir </> u "Downloads") = Some Dir ∧
     f' !! (script_dir </> u "ffmpeg.exe") = None).
Proof.
  intros Hread Hvalid Hnone. split.
  - destruct (mkdir_p (anchor (downloads script_dir))
                (rev (parts (downloads script_dir))) (fs w))
      as [e|f'] eqn:Hmk.
    + exists (Raised e), (emit (Mkdir (downloads script_dir)) w1).
      split; [|done]. intros yt. by apply main_mkdir_raises with url.
    + exists (SystemExit 1),
        (emit (printed (missing_message sep script_dir))
           (announced sep script_dir f' w1)).
      split; [|done]. intros yt. by apply main_missing with url.
  - intros f' Hmk. split; [|split].
    + intros yt. rewrite (main_missing _ _ _ _ _ url w1 f') by done.
      unfold announced, emit, tick, set_fs, printed, missing_message,
        warning_sign, log_path, downloads.
      cbn [fs open_files stdin clock ticks trace].
      rewrite !path_str_spelled. cbn [anchor parts joinpath].
      by rewrite <- !app_assoc.
    + by apply (mkdir_gives_is_dir _ (fs w)).
    + rewrite <- Hnone.
      exact (mkdir_gives_sibling _ (u "Downloads") (u "ffmpeg.exe") _ _
               ltac:(done) Hmk).
Qed.

Lemma missing_binary_exits_before_engine_witness :
  trace
    (main backslash sample_dir (sample_argv [sample_url]) (sample_engine 0)
       (sample_world sample_fs [])).2
  = [ Mkdir (sample_dir </> u "Downloads");
      Stdout (u "Output folder: C:" ++ backslash ++ u "ripper" ++ backslash
              ++ u "Downloads" ++ [10%N]);
      Stdout (u "Log file: C:" ++ backslash ++ u "ripper" ++ backslash
              ++ u "Downloads" ++ backslash
              ++ u "download_20240229_235907.log" ++ [10%N]);
      Stdout ([9888%N; 65039%N] ++ u " ffmpeg.exe not found in C:"
              ++ backslash
              ++ u "ripper. Please place ffmpeg.exe next to this script."
              ++ [10%N]) ].
Proof.
  destruct (missing_binary_exits_before_engine backslash sample_dir
              (sample_argv [sample_url]) (sample_world sample_fs [])
              sample_url (sample_world sample_fs []))
    as [_ Hsaid].
  - reflexivity.
  - reflexivity.
  - by vm_compute.
  - destruct (Hsaid (<[downloads sample_dir := Dir]> sample_fs))
      as (Hmain & _).
    + apply sample_mkdir_gives; by vm_compute.
    + by rewrite (Hmain (sample_engine 0)).
Defined.

(** C5: when the engine is reached and returns a result code, the script
    falls off the end of [main], so the exit status is 0 whatever the code
    is.  What the run adds to the world the engine left is one line on
    standard output: for 0 the success line, for any other code a
    different line in which the code stands written in decimal. *)
Theorem exit_status_ignores_engine_result
    sep script_dir argv yt w url w1 f' result w3 :
  read_url argv w = (Ok url, w1) →
  is_valid_youtube_url url = true →
  mkdir_gives (downloads script_dir) (fs w) f' →
  is_Some (fs w !! ffmpeg script_dir) →
  yt (passed_opts sep script_dir (clock w1 (ticks w1))) [url]
     (announced sep script_dir f' w1) = (Ok result, w3) →
  (main sep script_dir argv yt w).1 = Ok tt ∧
  exit_status (main sep script_dir argv yt w).1 = 0 ∧
  (result = 0 →
   (main sep script_dir argv yt w).2 =
     mkWorld (fs w3) (open_files w3) (stdin w3) (clock w3) (ticks w3)
       (trace w3 ++
        [Stdout ([9989%N] ++ u " Download complete." ++ [10%N])])) ∧
  (result ≠ 0 →
   (main sep script_dir argv yt w).2 =
     mkWorld (fs w3) (open_files w3) (stdin w3) (clock w3) (ticks w3)
       (trace w3 ++
        [Stdout ([9888%N; 65039%N] ++ u " Download finished with exit code "
                 ++ int_str result ++ u ". See log for details."
                 ++ [10%N])])) ∧
  int_text result (int_str result).
Proof.
  intros Hread Hvalid Hmk Hsome Hyt.
  rewrite (main_to_engine _ _ _ _ _ url w1 f') by done.
  rewrite (bind_Ok _ _ _ _ _ Hyt).
  split; [by destruct (result =? 0)|].
  split; [by destruct (result =? 0)|].
  split; [|split; [|apply int_str_text]].
  - by intros ->.
  - intros Hne. apply Z.eqb_neq in Hne as ->.
    unfold print, emit, printed, failed_message, warning_sign.
    cbn [snd]. by rewrite <- !app_assoc.
Qed.

Lemma exit_status_ignores_engine_result_witness :
  exit_status
    (main backslash sample_dir (sample_argv [sample_url]) (sample_engine 3)
       (sample_world sample_fs_ffmpeg [])).1 = 0 ∧
  trace
    (main backslash sample_dir (sample_argv [sample_url]) (sample_engine 3)
       (sample_world sample_fs_ffmpeg [])).2
  = trace (announced backslash sample_dir
             (<[downloads sample_dir := Dir]> sample_fs_ffmpeg)
             (sample_world sample_fs_ffmpeg []))
    ++ [Stdout ([9888%N; 65039%N]
                ++ u " Download finished with exit code 3. See log for details."
                ++ [10%N])].
Proof.
  destruct (exit_status_ignores_engine_result backslash sample_dir
              (sample_argv [sample_url]) (sample_engine 3)
              (sample_world sample_fs_ffmpeg [])
              sample_url (sample_world sample_fs_ffmpeg [])
              (<[downloads sample_dir := Dir]> sample_fs_ffmpeg)
              3 (announced backslash sample_dir
                   (<[downloads sample_dir := Dir]> sample_fs_ffmpeg)
                   (sample_world sample_fs_ffmpeg [])))
    as (_ & Hstatus & _ & Hline & _).
  - reflexivity.
  - reflexivity.
  - apply sample_mkdir_gives; by vm_compute.
  - exact sample_ffmpeg_present.
  - reflexivity.
  - split; [exact Hstatus|]. by rewrite Hline.
Defined.

(** ** The logger, line by line *)

(** C8, as stated, fails: when a directory has the name of the log file,
    a call to the logger prints its line and then ends in the error of
    [open]; no line is appended. *)
Lemma logger_line_not_appended_to_a_directory :
  let self := mkFileLogger (log_path (downloads sample_dir) sample_time) in
  let w := sample_world
             (<[logfile self := Dir]>
                (<[downloads sample_dir := Dir]> sample_fs)) [] in
  let r := FileLogger_error self (u "boom") w in
  r.1 = Raised IsADirectoryError ∧
  trace r.2
  = [Stdout (u "[2024-02-29 23:59:07.001500] [ERROR] boom" ++ [10%N])] ∧
  fs r.2 !! logfile self = Some Dir.
Proof. split; [|split]; vm_compute; reflexivity. Qed.

(** C8, amended: while the log file can be opened for appending (it is a
    regular file, or is missing in a folder that is there), each of
    [debug], [warning] and [error], given a message, reads the clock once,
    prints one line made of the time read, the tag of the operation and
    the message, and appends that same line to the log file of the run,
    which it opens, writes and closes in this order; the open files are
    afterwards those of before the call.  The time stands in the line as
    [YYYY-MM-DD HH:MM:SS], with the microseconds behind a point when they
    are not zero. *)
Theorem FileLogger_mirrors_each_line self msg c w :
  appendable (logfile self) (fs w) c →
  FileLogger_debug self msg w = (Ok tt, logged (u "DEBUG") self msg c w) ∧
  FileLogger_warning self msg w = (Ok tt, logged (u "WARN") self msg c w) ∧
  FileLogger_error self msg w = (Ok tt, logged (u "ERROR") self msg c w) ∧
  (∀ tag,
     let line :=
       u "[" ++ datetime_str (clock w (ticks w)) ++ u "] [" ++ tag
       ++ u "] " ++ msg ++ [10%N] in
     trace (logged tag self msg c w) =
       trace w ++ [ Stdout line; FileOpen (logfile self);
                    FileWrite (logfile self) line; FileClose (logfile self) ] ∧
     fs (logged tag self msg c w) !! logfile self = Some (File (c ++ line)) ∧
     (∀ q, q ≠ logfile self →
           fs (logged tag self msg c w) !! q = fs w !! q) ∧
     open_files (logged tag self msg c w) = open_files w ∧
     ticks (logged tag self msg c w) = S (ticks w)) ∧
  (wf_datetime (clock w (ticks w)) →
   timestamp_text (clock w (ticks w)) (datetime_str (clock w (ticks w)))).
Proof.
  intros Happ.
  split; [exact (FileLogger__write_run self (u "DEBUG") msg c w Happ)|].
  split; [exact (FileLogger__write_run self (u "WARN") msg c w Happ)|].
  split; [exact (FileLogger__write_run self (u "ERROR") msg c w Happ)|].
  split; [|apply datetime_str_reads].
  intros tag line.
  assert (log_line (clock w (ticks w)) tag msg ++ [10%N] = line) as Hline.
  { unfold log_line, line. by rewrite <- !app_assoc. }
  unfold logged. rewrite Hline. cbn [trace fs open_files ticks].
  split; [done|]. split; [apply lookup_insert_eq|]. split; [|done].
  intros q Hq. by apply lookup_insert_ne.
Qed.

Lemma FileLogger_mirrors_each_line_witness :
  let self := mkFileLogger (log_path (downloads sample_dir) sample_time) in
  let w := sample_world (<[downloads sample_dir := Dir]> sample_fs) [] in
  FileLogger_warning self (u "slow") w =
    (Ok tt, logged (u "WARN") self (u "slow") [] w)
  ∧ trace (logged (u "WARN") self (u "slow") [] w) =
      [ Stdout (u "[2024-02-29 23:59:07.001500] [WARN] slow" ++ [10%N]);
        FileOpen (logfile self);
        FileWrite (logfile self)
          (u "[2024-02-29 23:59:07.001500] [WARN] slow" ++ [10%N]);
        FileClose (logfile self) ]
  ∧ timestamp_text sample_time (u "2024-02-29 23:59:07.001500").
Proof.
  intros self w.
  assert (appendable (logfile self) (fs w) []) as Happ.
  { right. split; [by vm_compute|]. split; [by vm_compute|done]. }
  destruct (FileLogger_mirrors_each_line self (u "slow") [] w Happ)
    as (_ & Hwarn & _ & Hlog & Hstamp).
  split; [exact Hwarn|]. split; [exact (proj1 (Hlog (u "WARN")))|].
  apply Hstamp. unfold wf_datetime. simpl. lia.
Defined.

(** * Further properties of the script *)

(** ** The output folder *)

Lemma os_mkdir_inr_fresh p f f' : os_mkdir p f = inr f' → f !! p = None.
Proof. unfold os_mkdir. by destruct (f !! p). Qed.

(** Making a directory keeps every entry, and what it adds are
    directories. *)
Lemma mkdir_p_keeps a rp : ∀ f f',
  mkdir_p a rp f = inr f' →
  (∀ q n, f !! q = Some n → f' !! q = Some n) ∧
  (∀ q n, f' !! q = Some n → f !! q = Some n ∨ n = Dir).
Proof.
  assert (∀ p f f', os_mkdir p f = inr f' →
            (∀ q n, f !! q = Some n → f' !! q = Some n) ∧
            (∀ q n, f' !! q = Some n → f !! q = Some n ∨ n = Dir)) as Hos.
  { intros p f f' H. pose proof (os_mkdir_inr_fresh _ _ _ H) as Hfresh.
    apply os_mkdir_inr in H as ->. split; intros q n Hq.
    - rewrite lookup_insert_ne; [done|]. intros <-. congruence.
    - rewrite lookup_insert in Hq. case_decide; [right|left]; congruence. }
  induction rp as [|c up IH]; intros f f'; cbn [mkdir_p].
  - destruct (os_mkdir (mkPath a (rev [])) f) as [e|f1] eqn:Hmk.
    + destruct (is_FileNotFoundError e); [done|].
      destruct (is_dir _ f); [|done]. intros [= <-]. split; auto.
    + intros [= <-]. by apply (Hos _ _ _ Hmk).
  - destruct (os_mkdir (mkPath a (rev (c :: up))) f) as [e|f1] eqn:Hmk.
    + destruct (is_FileNotFoundError e).
      * destruct (mkdir_p a up f) as [e'|f1] eqn:Hup; [done|].
        destruct (IH _ _ Hup) as [Hkeep Hnew].
        destruct (os_mkdir (mkPath a (rev (c :: up))) f1) as [e'|f2] eqn:Hmk2.
        -- destruct (is_dir _ f1); [|done]. by intros [= <-].
        -- intros [= <-]. destruct (Hos _ _ _ Hmk2) as [Hkeep2 Hnew2].
           split; [by auto|]. intros q n Hq.
           destruct (Hnew2 _ _ Hq) as [Hq1| ->]; [by apply Hnew|by right].
      * destruct (is_dir _ f); [|done]. intros [= <-]. split; auto.
    + intros [= <-]. by apply (Hos _ _ _ Hmk).
Qed.

Lemma mkdir_p_existing a rp f :
  f !! mkPath a (rev rp) = Some Dir → mkdir_p a rp f = inr f.
Proof.
  intros H. destruct rp as [|c up]; cbn [mkdir_p]; unfold os_mkdir, is_dir;
    by rewrite H.
Qed.

Lemma mkdir_p_file_in_the_way a rp f c :
  f !! mkPath a (rev rp) = Some (File c) →
  mkdir_p a rp f = inl FileExistsError.
Proof.
  intros H. destruct rp as [|x up]; cbn [mkdir_p]; unfold os_mkdir, is_dir;
    by rewrite H.
Qed.

Lemma path_eta (p : Path) : mkPath (anchor p) (rev (rev (parts p))) = p.
Proof. rewrite rev_involutive. by destruct p. Qed.

Lemma get_download_folder_inv script_dir w o w1 :
  get_download_folder script_dir w = (Ok o, w1) →
  ∃ f', mkdir_gives (downloads script_dir) (fs w) f' ∧
        o = downloads script_dir ∧
        w1 = set_fs f' (emit (Mkdir (downloads script_dir)) w).
Proof.
  unfold get_download_folder, bind, Path_mkdir, mkdir_gives.
  fold (downloads script_dir). cbn [fs emit].
  destruct (mkdir_p _ _ (fs w)) as [e|f'] eqn:Hmk; [done|].
  intros [= <- <-]. by exists f'.
Qed.

(** The first run: with the script's directory there and no [Downloads] in
    it, [get_download_folder] adds exactly that directory. *)
Theorem get_download_folder_first_run script_dir w :
  fs w !! script_dir = Some Dir →
  fs w !! downloads script_dir = None →
  get_download_folder script_dir w =
    (Ok (script_dir </> u "Downloads"),
     set_fs (<[script_dir </> u "Downloads" := Dir]> (fs w))
       (emit (Mkdir (script_dir </> u "Downloads")) w)).
Proof.
  intros Hdir Hnone. apply get_download_folder_run.
  unfold mkdir_gives. destruct (rev (parts (downloads script_dir)))
    as [|c up] eqn:Hrev.
  - apply (f_equal (@length str)) in Hrev.
    rewrite length_rev in Hrev. unfold downloads, joinpath in Hrev.
    simpl in Hrev. rewrite length_app in Hrev. simpl in Hrev. lia.
  - cbn [mkdir_p]. rewrite <- Hrev, path_eta. unfold os_mkdir.
    rewrite Hnone. unfold downloads at 1. rewrite parent_joinpath.
    by rewrite Hdir.
Qed.

Lemma get_download_folder_first_run_witness :
  get_download_folder sample_dir (sample_world sample_fs []) =
    (Ok (sample_dir </> u "Downloads"),
     set_fs (<[sample_dir </> u "Downloads" := Dir]> sample_fs)
       (emit (Mkdir (sample_dir </> u "Downloads"))
          (sample_world sample_fs []))).
Proof.
  apply (get_download_folder_first_run sample_dir
           (sample_world sample_fs [])); by vm_compute.
Defined.

(** Every later run: once [get_download_folder] has returned, calling it
    again returns the same path and leaves the file system as it is. *)
Theorem get_download_folder_idempotent script_dir w o w1 :
  get_download_folder script_dir w = (Ok o, w1) →
  ∀ w2, fs w2 = fs w1 →
    get_download_folder script_dir w2 =
      (Ok o, set_fs (fs w1) (emit (Mkdir o) w2)).
Proof.
  intros H w2 Hfs.
  apply get_download_folder_inv in H as (f' & Hmk & -> & ->).
  cbn [fs set_fs emit] in *. apply get_download_folder_run.
  rewrite Hfs. unfold mkdir_gives. apply mkdir_p_existing.
  rewrite path_eta. by apply (mkdir_gives_is_dir _ (fs w)).
Qed.

Lemma get_download_folder_idempotent_witness :
  get_download_folder sample_dir
    (set_fs (<[sample_dir </> u "Downloads" := Dir]> sample_fs)
       (emit (Mkdir (sample_dir </> u "Downloads"))
          (sample_world sample_fs []))) =
    (Ok (sample_dir </> u "Downloads"),
     set_fs (<[sample_dir </> u "Downloads" := Dir]> sample_fs)
       (emit (Mkdir (sample_dir </> u "Downloads"))
          (set_fs (<[sample_dir </> u "Downloads" := Dir]> sample_fs)
             (emit (Mkdir (sample_dir </> u "Downloads"))
                (sample_world sample_fs []))))).
Proof.
  refine (get_download_folder_idempotent sample_dir
            (sample_world sample_fs []) _
            (set_fs (<[sample_dir </> u "Downloads" := Dir]> sample_fs)
               (emit (Mkdir (sample_dir </> u "Downloads"))
                  (sample_world sample_fs []))) _ _ _).
  - apply get_download_folder_run, sample_mkdir_gives; by vm_compute.
  - reflexivity.
Defined.

(** Whatever [get_download_folder] does, every file and directory that was
    there is still there unchanged, and anything new is a directory. *)
Theorem get_download_folder_keeps_entries script_dir w r w1 :
  get_download_folder script_dir w = (r, w1) →
  (∀ q n, fs w !! q = Some n → fs w1 !! q = Some n) ∧
  (∀ q n, fs w1 !! q = Some n → fs w !! q = Some n ∨ n = Dir).
Proof.
  unfold get_download_folder, bind, Path_mkdir. cbn [fs emit].
  destruct (mkdir_p _ _ (fs w)) as [e|f'] eqn:Hmk.
  - intros [= <- <-]. cbn [fs emit]. split; auto.
  - intros [= <- <-]. cbn [fs set_fs]. by apply (mkdir_p_keeps _ _ _ _ Hmk).
Qed.

Lemma get_download_folder_keeps_entries_witness :
  (<[downloads sample_dir := Dir]> sample_fs_ffmpeg) !! ffmpeg sample_dir
  = Some (File []).
Proof.
  refine (proj1 (get_download_folder_keeps_entries sample_dir
                   (sample_world sample_fs_ffmpeg [])
                   (Ok (downloads sample_dir))
                   (set_fs (<[downloads sample_dir := Dir]> sample_fs_ffmpeg)
                      (emit (Mkdir (downloads sample_dir))
                         (sample_world sample_fs_ffmpeg []))) _)
            (ffmpeg sample_dir) (File []) _).
  - apply get_download_folder_run, sample_mkdir_gives; by vm_compute.
  - apply lookup_insert_eq.
Defined.

(** A regular file named [Downloads] next to the script: the folder cannot
    be made, [get_download_folder] raises [FileExistsError], and a run with
    a valid URL ends there with that exception, before the clock is read,
    before anything is announced and without the engine. *)
Theorem downloads_is_a_file_stops_the_run
    sep script_dir argv w url w1 c :
  fs w !! downloads script_dir = Some (File c) →
  read_url argv w = (Ok url, w1) →
  is_valid_youtube_url url = true →
  get_download_folder script_dir w =
    (Raised FileExistsError, emit (Mkdir (downloads script_dir)) w) ∧
  ∀ yt,
    main sep script_dir argv yt w =
      (Raised FileExistsError, emit (Mkdir (downloads script_dir)) w1) ∧
    exit_status (main sep script_dir argv yt w).1 = 1.
Proof.
  intros Hfile Hread Hvalid.
  assert (mkdir_p (anchor (downloads script_dir))
            (rev (parts (downloads script_dir))) (fs w)
          = inl FileExistsError) as Hmk.
  { apply mkdir_p_file_in_the_way with c. by rewrite path_eta. }
  split; [by apply get_download_folder_raises|].
  intros yt. by rewrite (main_mkdir_raises _ _ _ _ _ url w1 _ Hread Hvalid Hmk).
Qed.

Lemma downloads_is_a_file_stops_the_run_witness :
  exit_status
    (main backslash sample_dir (sample_argv [sample_url]) (sample_engine 0)
       (sample_world (<[downloads sample_dir := File []]> sample_fs_ffmpeg)
          [])).1 = 1.
Proof.
  refine (proj2 (proj2 (downloads_is_a_file_stops_the_run backslash sample_dir
                          (sample_argv [sample_url])
                          (sample_world
                             (<[downloads sample_dir := File []]>
                                sample_fs_ffmpeg) [])
                          sample_url _ [] _ _ _) (sample_engine 0))).
  - apply lookup_insert_eq.
  - reflexivity.
  - reflexivity.
Defined.

(** ** Ways [main] ends *)

(** No argument and nothing to read: [input] raises [EOFError] after the
    prompt, and the run ends with it; nothing else has happened. *)
Theorem main_without_url_ends_at_the_prompt sep script_dir argv w :
  (length argv ≤ 1)%nat → stdin w = [] →
  ∀ yt,
    main sep script_dir argv yt w =
      (Raised EOFError, emit (Stdout (u "Paste a YouTube URL: ")) w) ∧
    exit_status (main sep script_dir argv yt w).1 = 1.
Proof.
  intros Hlen Hin yt.
  assert (read_url argv w =
            (Raised EOFError, emit (Stdout (u "Paste a YouTube URL: ")) w))
    as Hread.
  { assert (read_url argv =
              (line <- input (u "Paste a YouTube URL: ") ;; ret (strip line)))
      as -> by (destruct argv as [|? [|? ?]]; simpl in *; [done|done|lia]).
    unfold bind, input. simpl. by rewrite Hin. }
  unfold main. by rewrite (bind_Raised _ _ _ _ _ Hread).
Qed.

Lemma main_without_url_ends_at_the_prompt_witness :
  exit_status
    (main backslash sample_dir (sample_argv []) (sample_engine 0)
       (sample_world sample_fs_ffmpeg [])).1 = 1.
Proof.
  refine (proj2 (main_without_url_ends_at_the_prompt backslash sample_dir
                   (sample_argv []) (sample_world sample_fs_ffmpeg [])
                   _ _ (sample_engine 0))).
  - simpl. lia.
  - reflexivity.
Defined.

(** When the engine does not return (it raises, or leaves by [sys.exit]),
    the run ends the same way, in the world the engine left: no closing
    line is printed, and the exit status is not 0 for an exception. *)
Theorem engine_failure_ends_the_run
    sep script_dir argv yt w url w1 f' w3 :
  read_url argv w = (Ok url, w1) →
  is_valid_youtube_url url = true →
  mkdir_gives (downloads script_dir) (fs w) f' →
  is_Some (fs w !! ffmpeg script_dir) →
  (∀ e,
     yt (passed_opts sep script_dir (clock w1 (ticks w1))) [url]
        (announced sep script_dir f' w1) = (Raised e, w3) →
     main sep script_dir argv yt w = (Raised e, w3) ∧
     exit_status (main sep script_dir argv yt w).1 = 1) ∧
  (∀ code,
     yt (passed_opts sep script_dir (clock w1 (ticks w1))) [url]
        (announced sep script_dir f' w1) = (SystemExit code, w3) →
     main sep script_dir argv yt w = (SystemExit code, w3)).
Proof.
  intros Hread Hvalid Hmk Hsome.
  rewrite (main_to_engine _ _ _ _ _ url w1 f') by done. split.
  - intros e Hyt. by rewrite (bind_Raised _ _ _ _ _ Hyt).
  - intros code Hyt. by rewrite (bind_SystemExit _ _ _ _ _ Hyt).
Qed.

Lemma engine_failure_ends_the_run_witness :
  exit_status
    (main backslash sample_dir (sample_argv [sample_url])
       (λ _ _, raise ValueError)
       (sample_world sample_fs_ffmpeg [])).1 = 1.
Proof.
  refine (proj2 (proj1 (engine_failure_ends_the_run backslash sample_dir
                   (sample_argv [sample_url]) (λ _ _, raise ValueError)
                   (sample_world sample_fs_ffmpeg [])
                   sample_url (sample_world sample_fs_ffmpeg [])
                   (<[downloads sample_dir := Dir]> sample_fs_ffmpeg)
                   _ _ _ _ _) ValueError _)).
  - reflexivity.
  - reflexivity.
  - apply sample_mkdir_gives; by vm_compute.
  - exact sample_ffmpeg_present.
  - reflexivity.
Defined.

Lemma read_url_result argv w r w1 :
  read_url argv w = (r, w1) → (∃ url, r = Ok url) ∨ r = Raised EOFError.
Proof.
  assert (∀ c : M str,
    c = (line <- input (u "Paste a YouTube URL: ") ;; ret (strip line)) →
    c w = (r, w1) → (∃ url, r = Ok url) ∨ r = Raised EOFError) as Hprompt.
  { intros c -> H. unfold bind, input, ret in H. simpl in H.
    destruct (stdin w) as [|line rest]; injection H as <- <-; eauto. }
  destruct argv as [|prog [|arg more]]; try (by apply Hprompt).
  simpl. intros [= <- <-]. eauto.
Qed.

(** Every way a run can go, in the order of the script. *)
Lemma main_cases sep script_dir argv yt w :
  (∃ w1, main sep script_dir argv yt w = (Raised EOFError, w1)) ∨
  (∃ w1, main sep script_dir argv yt w = (SystemExit 1, w1)) ∨
  (∃ e w1, main sep script_dir argv yt w = (Raised e, w1)) ∨
  (∃ url w1 f',
     read_url argv w = (Ok url, w1) ∧ is_valid_youtube_url url = true ∧
     mkdir_gives (downloads script_dir) (fs w) f' ∧
     is_Some (fs w !! ffmpeg script_dir) ∧
     main sep script_dir argv yt w =
       (result <- yt (passed_opts sep script_dir (clock w1 (ticks w1)))
                    [url] ;;
        if result =? 0 then print complete_message
        else print (failed_message result))
         (announced sep script_dir f' w1)).
Proof.
  destruct (read_url argv w) as [r w1] eqn:Hread.
  destruct (read_url_result _ _ _ _ Hread) as [[url ->]| ->].
  - destruct (is_valid_youtube_url url) eqn:Hvalid.
    + destruct (mkdir_p (anchor (downloads script_dir))
                  (rev (parts (downloads script_dir))) (fs w))
        as [e|f'] eqn:Hmk.
      * right; right; left. eexists _, _.
        by apply main_mkdir_raises with url.
      * destruct (fs w !! ffmpeg script_dir) as [n|] eqn:Hff.
        -- right; right; right. exists url, w1, f'.
           repeat (split; [done|]).
           apply main_to_engine; try done; by rewrite Hff.
        -- right; left. eexists. by apply main_missing with url.
    + right; left. eexists. by apply main_invalid with url.
  - left. exists w1. unfold main. by rewrite (bind_Raised _ _ _ _ _ Hread).
Qed.

(** A run falls off the end of [main] only after the URL was validated,
    the folder made, [ffmpeg.exe] found and the engine called with that
    one URL, the engine having returned a code.  With an engine that never
    leaves by [sys.exit], these are the only runs with exit status 0. *)
Theorem run_returns_only_through_engine sep script_dir argv yt w :
  ((main sep script_dir argv yt w).1 = Ok tt →
   ∃ url w1 f' result w3,
     read_url argv w = (Ok url, w1) ∧ is_valid_youtube_url url = true ∧
     mkdir_gives (downloads script_dir) (fs w) f' ∧
     is_Some (fs w !! ffmpeg script_dir) ∧
     yt (passed_opts sep script_dir (clock w1 (ticks w1))) [url]
        (announced sep script_dir f' w1) = (Ok result, w3)) ∧
  ((∀ opts urls w2 code w3, yt opts urls w2 ≠ (SystemExit code, w3)) →
   exit_status (main sep script_dir argv yt w).1 = 0 →
   (main sep script_dir argv yt w).1 = Ok tt).
Proof.
  destruct (main_cases sep script_dir argv yt w)
    as [[w1 Hm]|[[w1 Hm]|[(e & w1 & Hm)
       |(url & w1 & f' & Hread & Hvalid & Hmk & Hff & Hm)]]];
    rewrite Hm; try (split; [intros H|intros _ H]; discriminate H).
  destruct (yt (passed_opts sep script_dir (clock w1 (ticks w1))) [url]
              (announced sep script_dir f' w1)) as [r w3] eqn:Hyt.
  unfold bind. rewrite Hyt. destruct r as [result|code|e].
  - split.
    + intros _. by exists url, w1, f', result, w3.
    + intros _ _. by destruct (result =? 0).
  - split; [intros H; discriminate H|].
    intros Hnever _. by destruct (Hnever _ _ _ _ _ Hyt).
  - split; [intros H|intros _ H]; discriminate H.
Qed.

Lemma run_returns_only_through_engine_witness :
  ∃ url w1 f' result w3,
    read_url (sample_argv [sample_url]) (sample_world sample_fs_ffmpeg [])
      = (Ok url, w1) ∧ is_valid_youtube_url url = true ∧
    mkdir_gives (downloads sample_dir)
      (fs (sample_world sample_fs_ffmpeg [])) f' ∧
    is_Some (fs (sample_world sample_fs_ffmpeg []) !! ffmpeg sample_dir) ∧
    sample_engine 7 (passed_opts backslash sample_dir (clock w1 (ticks w1)))
      [url] (announced backslash sample_dir f' w1) = (Ok result, w3).
Proof.
  apply (proj1 (run_returns_only_through_engine backslash sample_dir
                  (sample_argv [sample_url]) (sample_engine 7)
                  (sample_world sample_fs_ffmpeg []))).
  by vm_compute.
Defined.

(** Unless the engine itself leaves by [sys.exit] with a code of its own,
    the exit status of a run is 0 or 1. *)
Theorem exit_status_is_0_or_1 sep script_dir argv yt w :
  (∀ opts urls w2 code w3, yt opts urls w2 ≠ (SystemExit code, w3)) →
  exit_status (main sep script_dir argv yt w).1 = 0 ∨
  exit_status (main sep script_dir argv yt w).1 = 1.
Proof.
  intros Hyt.
  destruct (main_cases sep script_dir argv yt w)
    as [[w1 Hm]|[[w1 Hm]|[(e & w1 & Hm)
       |(url & w1 & f' & Hread & Hvalid & Hmk & Hff & Hm)]]];
    rewrite Hm; try (by right).
  unfold bind.
  destruct (yt (passed_opts sep script_dir (clock w1 (ticks w1))) [url]
              (announced sep script_dir f' w1)) as [r w3] eqn:Hrun.
  destruct r as [result|code|e].
  - left. by destruct (result =? 0).
  - by destruct (Hyt _ _ _ _ _ Hrun).
  - by right.
Qed.

Lemma exit_status_is_0_or_1_witness :
  exit_status
    (main backslash sample_dir (sample_argv [sample_url]) (sample_engine 7)
       (sample_world sample_fs_ffmpeg [])).1 = 0 ∨
  exit_status
    (main backslash sample_dir (sample_argv [sample_url]) (sample_engine 7)
       (sample_world sample_fs_ffmpeg [])).1 = 1.
Proof.
  apply (exit_status_is_0_or_1 backslash sample_dir
           (sample_argv [sample_url]) (sample_engine 7)
           (sample_world sample_fs_ffmpeg [])).
  intros opts urls w2 code w3. discriminate.
Defined.

(** ** The log file and the logger *)

Lemma mkdir_gives_child script_dir x y f f' :
  mkdir_gives (script_dir </> x) f f' →
  f' !! (script_dir </> x </> y) = f !! (script_dir </> x </> y).
Proof.
  intros H. unfold mkdir_gives in H. apply (mkdir_p_frame _ _ _ _ H).
  intros s Hs [= Heq]. apply suffix_length in Hs.
  apply (f_equal (@length str)) in Heq.
  unfold joinpath in Hs. cbn [parts] in Hs.
  rewrite !length_rev, !length_app in *. simpl in *. lia.
Qed.

(** [main] itself puts nothing inside [Downloads]: when the engine is
    called, every path directly inside the folder, the log file of the run
    among them, holds what it held when the run began, and the closing line
    changes nothing either.  The log file is made by the logger, at the
    first line logged. *)
Theorem log_file_is_left_to_the_logger
    sep script_dir argv yt w url w1 f' :
  read_url argv w = (Ok url, w1) →
  is_valid_youtube_url url = true →
  mkdir_gives (downloads script_dir) (fs w) f' →
  is_Some (fs w !! ffmpeg script_dir) →
  main sep script_dir argv yt w =
    (result <- yt (passed_opts sep script_dir (clock w1 (ticks w1))) [url] ;;
     if result =? 0 then print complete_message
     else print (failed_message result))
      (announced sep script_dir f' w1) ∧
  (∀ x, fs (announced sep script_dir f' w1) !! (downloads script_dir </> x)
        = fs w !! (downloads script_dir </> x)) ∧
  (∀ t, fs (announced sep script_dir f' w1)
          !! log_path (downloads script_dir) t
        = fs w !! log_path (downloads script_dir) t) ∧
  ∀ result w3,
    yt (passed_opts sep script_dir (clock w1 (ticks w1))) [url]
       (announced sep script_dir f' w1) = (Ok result, w3) →
    fs (main sep script_dir argv yt w).2 = fs w3.
Proof.
  intros Hread Hvalid Hmk Hsome.
  split; [by apply main_to_engine|].
  assert (∀ x, fs (announced sep script_dir f' w1)
                 !! (downloads script_dir </> x)
               = fs w !! (downloads script_dir </> x)) as Hin.
  { intros x. cbn [announced fs emit tick set_fs].
    by apply mkdir_gives_child. }
  split; [done|]. split; [intros t; apply Hin|].
  intros result w3 Hyt.
  rewrite (main_to_engine _ _ _ _ _ url w1 f') by done.
  rewrite (bind_Ok _ _ _ _ _ Hyt). by destruct (result =? 0).
Qed.

Lemma log_file_is_left_to_the_logger_witness :
  fs (announced backslash sample_dir
        (<[downloads sample_dir := Dir]> sample_fs_ffmpeg)
        (sample_world sample_fs_ffmpeg []))
    !! log_path (downloads sample_dir) sample_time
  = fs (sample_world sample_fs_ffmpeg [])
      !! log_path (downloads sample_dir) sample_time.
Proof.
  refine (proj1 (proj2 (proj2
            (log_file_is_left_to_the_logger backslash sample_dir
               (sample_argv [sample_url]) (sample_engine 0)
               (sample_world sample_fs_ffmpeg [])
               sample_url (sample_world sample_fs_ffmpeg [])
               (<[downloads sample_dir := Dir]> sample_fs_ffmpeg)
               _ _ _ _))) sample_time).
  - reflexivity.
  - reflexivity.
  - apply sample_mkdir_gives; by vm_compute.
  - exact sample_ffmpeg_present.
Defined.

Lemma log_call_write self l msg :
  log_call self l msg = FileLogger__write self (level_tag l) msg.
Proof. by destruct l. Qed.

Lemma stdout_text_app tr1 tr2 :
  stdout_text (tr1 ++ tr2) = stdout_text tr1 ++ stdout_text tr2.
Proof.
  induction tr1 as [|e tr1 IH]; [done|].
  destruct e; simpl; rewrite IH; by rewrite <- ?app_assoc.
Qed.

Lemma stdout_text_snoc_Stdout tr text :
  stdout_text (tr ++ [Stdout text]) = stdout_text tr ++ text.
Proof. rewrite stdout_text_app. simpl. by rewrite app_nil_r. Qed.

Lemma stdout_text_snoc_Mkdir tr p :
  stdout_text (tr ++ [Mkdir p]) = stdout_text tr.
Proof. rewrite stdout_text_app. simpl. by rewrite app_nil_r. Qed.

Lemma log_calls_run self calls : ∀ c w,
  appendable (logfile self) (fs w) c →
  ∃ w',
    log_calls self calls w = (Ok tt, w') ∧
    appendable (logfile self) (fs w')
      (c ++ log_text (clock w) (ticks w) calls) ∧
    (calls ≠ [] →
     fs w' !! logfile self
     = Some (File (c ++ log_text (clock w) (ticks w) calls))) ∧
    stdout_text (trace w')
    = stdout_text (trace w) ++ log_text (clock w) (ticks w) calls ∧
    open_files w' = open_files w ∧
    ticks w' = (ticks w + length calls)%nat ∧ clock w' = clock w ∧
    ∀ q, q ≠ logfile self → fs w' !! q = fs w !! q.
Proof.
  induction calls as [|[l msg] rest IH]; intros c w Happ.
  - exists w. simpl. rewrite !app_nil_r, Nat.add_0_r. by repeat split.
  - set (line := log_line (clock w (ticks w)) (level_tag l) msg ++ [10%N]).
    set (w1 := logged (level_tag l) self msg c w).
    assert (fs w1 !! logfile self = Some (File (c ++ line))) as Hfile
      by apply lookup_insert_eq.
    destruct (IH (c ++ line) w1 (or_introl Hfile))
      as (w' & Hrun & Happ' & _ & Hout & Hopen & Hticks & Hclock & Hframe).
    exists w'. cbn [log_calls log_text].
    rewrite log_call_write.
    rewrite (bind_Ok _ _ _ _ _ (FileLogger__write_run _ _ _ _ _ Happ)).
    fold w1.
    change (clock w1) with (clock w) in *.
    change (ticks w1) with (S (ticks w)) in *.
    assert (stdout_text (trace w1) = stdout_text (trace w) ++ line) as Hout1.
    { unfold w1, logged. cbn [trace]. rewrite stdout_text_app. simpl.
      by rewrite app_nil_r. }
    rewrite Hout1 in Hout. clear Hout1.
    subst line. rewrite <- !app_assoc in *.
    assert (fs w' !! logfile self
            = Some (File (c ++ log_line (clock w (ticks w)) (level_tag l) msg
                          ++ [10%N]
                          ++ log_text (clock w) (S (ticks w)) rest))) as Hf'.
    { destruct Happ' as [H|(H & _ & Hnil)]; [done|].
      by destruct c. }
    split; [done|]. split; [by left|]. split; [done|]. split; [done|].
    split; [done|]. split; [simpl; lia|]. split; [done|].
    intros q Hq. rewrite (Hframe q Hq). unfold w1, logged. cbn [fs].
    by apply lookup_insert_ne.
Qed.

(** Any run of calls to the logger, from a state in which the log file can
    be opened: every call succeeds, the text added to the console and the
    text added to the log file are the same lines in the order of the
    calls, each stamped with its own reading of the clock; no file is left
    open and no other path changes. *)
Theorem logger_calls_mirror self calls : ∀ c w,
  appendable (logfile self) (fs w) c →
  ∃ w',
    log_calls self calls w = (Ok tt, w') ∧
    appendable (logfile self) (fs w')
      (c ++ log_text (clock w) (ticks w) calls) ∧
    (calls ≠ [] →
     fs w' !! logfile self
     = Some (File (c ++ log_text (clock w) (ticks w) calls))) ∧
    stdout_text (trace w')
    = stdout_text (trace w) ++ log_text (clock w) (ticks w) calls ∧
    open_files w' = open_files w ∧
    ticks w' = (ticks w + length calls)%nat ∧ clock w' = clock w ∧
    ∀ q, q ≠ logfile self → fs w' !! q = fs w !! q.
Proof. apply log_calls_run. Qed.

Lemma logger_calls_mirror_witness :
  ∃ w',
    log_calls (mkFileLogger (log_path (downloads sample_dir) sample_time))
      [(Debug, u "a"); (Error, u "b")]
      (sample_world (<[downloads sample_dir := Dir]> sample_fs) [])
    = (Ok tt, w') ∧
    stdout_text (trace w')
    = u "[2024-02-29 23:59:07.001500] [DEBUG] a" ++ [10%N]
      ++ u "[2024-02-29 23:59:07.001500] [ERROR] b" ++ [10%N] ∧
    fs w' !! log_path (downloads sample_dir) sample_time
    = Some (File (u "[2024-02-29 23:59:07.001500] [DEBUG] a" ++ [10%N]
                  ++ u "[2024-02-29 23:59:07.001500] [ERROR] b" ++ [10%N])).
Proof.
  destruct (logger_calls_mirror
              (mkFileLogger (log_path (downloads sample_dir) sample_time))
              [(Debug, u "a"); (Error, u "b")] []
              (sample_world (<[downloads sample_dir := Dir]> sample_fs) []))
    as (w' & Hrun & _ & Hfile & Hout & _).
  - right. split; [by vm_compute|]. split; [by vm_compute|done].
  - exists w'. split; [exact Hrun|]. split; [exact Hout|].
    by apply Hfile.
Defined.

(** When the log file cannot be opened (a directory has its name, or the
    folder is not there), a call to the logger still prints its line, then
    ends with the exception of [open]; the file system is as before and
    nothing was opened. *)
Theorem logger_prints_then_open_fails self l msg w e :
  (fs w !! logfile self = Some Dir ∧ e = IsADirectoryError) ∨
  (fs w !! logfile self = None ∧ fs w !! parent (logfile self) = None ∧
   e = FileNotFoundError) ∨
  (fs w !! logfile self = None ∧
   (∃ c, fs w !! parent (logfile self) = Some (File c)) ∧
   e = NotADirectoryError) →
  log_call self l msg w =
    (Raised e,
     emit (printed (log_line (clock w (ticks w)) (level_tag l) msg))
       (tick w)).
Proof.
  intros H. rewrite log_call_write. unfold FileLogger__write.
  rewrite (bind_Ok _ _ _ _ _ (eq_refl : now w = (Ok _, tick w))).
  fold (log_line (clock w (ticks w)) (level_tag l) msg).
  rewrite (bind_Ok _ _ _ _ _ (print_run _ _)).
  unfold with_open_append, open_append. cbn [fs emit tick].
  destruct H as [[-> ->]|[(-> & -> & ->)|(-> & [c ->] & ->)]]; done.
Qed.

Lemma logger_prints_then_open_fails_witness :
  log_call (mkFileLogger (log_path (downloads sample_dir) sample_time))
    Warning (u "slow") (sample_world sample_fs []) =
    (Raised FileNotFoundError,
     emit (printed (log_line sample_time (u "WARN") (u "slow")))
       (tick (sample_world sample_fs []))).
Proof.
  apply (logger_prints_then_open_fails
           (mkFileLogger (log_path (downloads sample_dir) sample_time))
           Warning (u "slow") (sample_world sample_fs [])).
  right; left. split; [by vm_compute|]. split; [by vm_compute|done].
Defined.

(** ** The order of log file names *)

Lemma str_ltb_irrefl s : str_ltb s s = false.
Proof.
  induction s as [|c s IH]; [done|]. simpl.
  by rewrite N.ltb_irrefl, N.eqb_refl, IH.
Qed.

Lemma str_ltb_app_same p x y : str_ltb (p ++ x) (p ++ y) = str_ltb x y.
Proof.
  induction p as [|c p IH]; [done|]. simpl.
  by rewrite N.ltb_irrefl, N.eqb_refl, IH.
Qed.

Lemma str_ltb_app_eqlen x1 : ∀ x2 y1 y2,
  length x1 = length x2 →
  str_ltb (x1 ++ y1) (x2 ++ y2) = true ↔
  str_ltb x1 x2 = true ∨ (x1 = x2 ∧ str_ltb y1 y2 = true).
Proof.
  induction x1 as [|c1 x1 IH]; intros [|c2 x2] y1 y2 Hlen; try done.
  - simpl. split; [by right|]. by intros [?|[_ ?]].
  - injection Hlen as Hlen. simpl.
    rewrite !orb_true_iff, !andb_true_iff, (IH x2 y1 y2 Hlen), N.eqb_eq.
    split.
    + intros [?|[-> [?|[-> ?]]]]; auto.
    + intros [[?|[-> ?]]|[[= -> ->] ?]]; auto.
Qed.

Lemma zpad_ltb n : ∀ a b,
  0 <= a < 10 ^ Z.of_nat n → 0 <= b < 10 ^ Z.of_nat n →
  str_ltb (zpad n a) (zpad n b) = true ↔ a < b.
Proof.
  induction n as [|n IH]; intros a b Ha Hb.
  - simpl in *. split; [done|lia].
  - rewrite Nat2Z.inj_succ, Z.pow_succ_r in Ha, Hb by lia.
    assert (0 <= a / 10 < 10 ^ Z.of_nat n) as Ha'.
    { split; [apply Z.div_pos; lia|]. apply Z.div_lt_upper_bound; lia. }
    assert (0 <= b / 10 < 10 ^ Z.of_nat n) as Hb'.
    { split; [apply Z.div_pos; lia|]. apply Z.div_lt_upper_bound; lia. }
    cbn [zpad]. rewrite str_ltb_app_eqlen by (by rewrite !length_zpad).
    rewrite (IH _ _ Ha' Hb'). simpl.
    rewrite orb_true_iff, andb_false_r, N.ltb_lt. unfold digit.
    pose proof (Z.mod_pos_bound a 10 ltac:(lia)).
    pose proof (Z.mod_pos_bound b 10 ltac:(lia)).
    pose proof (Z.div_mod a 10 ltac:(lia)).
    pose proof (Z.div_mod b 10 ltac:(lia)).
    split.
    + intros [?|[Heq [?|?]]]; [lia| |done].
      apply (zpad_inj n _ _ Ha' Hb') in Heq. lia.
    + intros Hlt. destruct (Z.lt_trichotomy (a / 10) (b / 10)) as [?|[Heq|?]].
      * by left.
      * right. split; [by rewrite Heq|]. left. lia.
      * lia.
Qed.

Lemma stamp_block_ltb n a1 a2 y1 y2 :
  0 <= a1 < 10 ^ Z.of_nat n → 0 <= a2 < 10 ^ Z.of_nat n →
  str_ltb (zpad n a1 ++ y1) (zpad n a2 ++ y2) = true ↔
  a1 < a2 ∨ (a1 = a2 ∧ str_ltb y1 y2 = true).
Proof.
  intros H1 H2. rewrite str_ltb_app_eqlen by (by rewrite !length_zpad).
  rewrite (zpad_ltb n _ _ H1 H2). split.
  - intros [?|[Heq ?]]; [by left|right]. split; [|done].
    by apply (zpad_inj n).
  - intros [?|[-> ?]]; [by left|by right].
Qed.

(** The names sort as the instants do: of two runs, the log file of the
    one started in an earlier second has the smaller name in the order of
    strings. *)
Theorem log_names_sort_by_time outdir t1 t2 :
  wf_datetime t1 → wf_datetime t2 →
  str_ltb (name (log_path outdir t1)) (name (log_path outdir t2)) = true ↔
  earlier t1 t2.
Proof.
  intros (Hy1 & Hm1 & Hd1 & HH1 & HM1 & HS1 & _)
         (Hy2 & Hm2 & Hd2 & HH2 & HM2 & HS2 & _).
  unfold log_path. rewrite !name_joinpath, str_ltb_app_same.
  unfold stamp, earlier. rewrite <- !app_assoc.
  rewrite (stamp_block_ltb 4) by (simpl; lia).
  rewrite (stamp_block_ltb 2) by (simpl; lia).
  rewrite (stamp_block_ltb 2) by (simpl; lia).
  rewrite (str_ltb_app_same (u "_")).
  rewrite (stamp_block_ltb 2) by (simpl; lia).
  rewrite (stamp_block_ltb 2) by (simpl; lia).
  rewrite (stamp_block_ltb 2) by (simpl; lia).
  rewrite str_ltb_irrefl. intuition discriminate.
Qed.

Lemma log_names_sort_by_time_witness :
  str_ltb (u "download_20240229_235907.log")
          (u "download_20240301_000000.log") = true.
Proof.
  apply (proj2 (log_names_sort_by_time (downloads sample_dir) sample_time
                  (mkDatetime 2024 3 1 0 0 0 0)
                  ltac:(unfold wf_datetime; simpl; lia)
                  ltac:(unfold wf_datetime; simpl; lia))).
  unfold earlier. simpl. lia.
Defined.

(** ** The options handed over *)

Lemma expected_opts_names sep outdir ffmpeg_path k :
  is_Some (expected_opts sep outdir ffmpeg_path !! k) ↔ k ∈ option_names.
Proof.
  unfold expected_opts, dict_display, option_names. cbn [foldl fst snd].
  repeat (rewrite lookup_insert; destruct (decide _) as [<-|?];
          [split; [intros _|by eexists];
           repeat first [apply list_elem_of_here|apply list_elem_of_further]
          |]).
  rewrite lookup_empty. split; [by intros [? ?]|].
  intros Hin. repeat (apply elem_of_cons in Hin as [->|Hin]; [done|]).
  by apply elem_of_nil in Hin.
Qed.

(** The record [ydl_opts] builds has the fourteen options of its display
    and no other, [logger] still [None]; the two switches of [SETTINGS]
    the engine has no name for, [force_overwrites] and [no_continue], are
    read but not copied.  Putting the logger in changes no name, and that
    record is what [main] calls the engine with. *)
Theorem engine_is_given_the_fourteen_options sep script_dir :
  (∀ w, ∃ d,
     ydl_opts sep (downloads script_dir) (ffmpeg script_dir) w = (Ok d, w) ∧
     (∀ k, is_Some (d !! k) ↔ k ∈ option_names) ∧
     d !! u "logger" = Some VNone ∧
     d !! u "force_overwrites" = None ∧ d !! u "no_continue" = None ∧
     is_Some (SETTINGS !! u "force_overwrites") ∧
     is_Some (SETTINGS !! u "no_continue")) ∧
  (∀ argv yt w url w1 f',
     read_url argv w = (Ok url, w1) →
     is_valid_youtube_url url = true →
     mkdir_gives (downloads script_dir) (fs w) f' →
     is_Some (fs w !! ffmpeg script_dir) →
     ∃ opts,
       main sep script_dir argv yt w =
         (result <- yt opts [url] ;;
          if result =? 0 then print complete_message
          else print (failed_message result))
           (announced sep script_dir f' w1) ∧
       (∀ k, is_Some (opts !! k) ↔ k ∈ option_names) ∧
       opts !! u "logger" =
         Some (VLogger (mkFileLogger
                          (log_path (downloads script_dir)
                             (clock w1 (ticks w1))))) ∧
       opts !! u "force_overwrites" = None ∧
       opts !! u "no_continue" = None).
Proof.
  split.
  - intros w. eexists. split; [apply ydl_opts_run|].
    split; [intros k; apply expected_opts_names|]. by repeat split.
  - intros argv yt w url w1 f' Hread Hvalid Hmk Hsome.
    exists (passed_opts sep script_dir (clock w1 (ticks w1))).
    split; [by apply main_to_engine|]. split; [|by repeat split].
    intros k. unfold passed_opts. rewrite lookup_insert.
    destruct (decide _) as [<-|?]; [|apply expected_opts_names].
    split; [intros _|by eexists].
    repeat first [apply list_elem_of_here|apply list_elem_of_further].
Qed.

Lemma engine_is_given_the_fourteen_options_witness :
  ∃ opts,
    main backslash sample_dir (sample_argv [sample_url]) (sample_engine 0)
      (sample_world sample_fs_ffmpeg []) =
      (result <- sample_engine 0 opts [sample_url] ;;
       if result =? 0 then print complete_message
       else print (failed_message result))
        (announced backslash sample_dir
           (<[downloads sample_dir := Dir]> sample_fs_ffmpeg)
           (sample_world sample_fs_ffmpeg [])) ∧
    (∀ k, is_Some (opts !! k) ↔ k ∈ option_names) ∧
    opts !! u "logger" =
      Some (VLogger (mkFileLogger
                       (log_path (downloads sample_dir)
                          (clock (sample_world sample_fs_ffmpeg [])
                             (ticks (sample_world sample_fs_ffmpeg []))))))
    ∧ opts !! u "force_overwrites" = None ∧
    opts !! u "no_continue" = None.
Proof.
  refine (proj2 (engine_is_given_the_fourteen_options backslash sample_dir)
            (sample_argv [sample_url]) (sample_engine 0)
            (sample_world sample_fs_ffmpeg []) sample_url
            (sample_world sample_fs_ffmpeg [])
            (<[downloads sample_dir := Dir]> sample_fs_ffmpeg) _ _ _ _).
  - reflexivity.
  - reflexivity.
  - apply sample_mkdir_gives; by vm_compute.
  - exact sample_ffmpeg_present.
Defined.

(** ** White space around the URL *)

Lemma lstrip_suffix l : ∃ k, l = k ++ lstrip l.
Proof.
  induction l as [|c l [k IH]]; [by exists []|]. simpl.
  destruct (Py_UNICODE_ISSPACE c); [|by exists []].
  exists (c :: k). simpl. by rewrite <- IH.
Qed.

Lemma lstrip_app_keep c l2 : ∀ l1,
  Py_UNICODE_ISSPACE c = false →
  ∃ k, lstrip (l1 ++ c :: l2) = k ++ c :: l2.
Proof.
  intros l1 Hc. induction l1 as [|x l1 [k IH]]; simpl.
  - rewrite Hc. by exists [].
  - destruct (Py_UNICODE_ISSPACE x); [by exists k|].
    by exists (x :: l1).
Qed.

Lemma rstrip_prefix s : ∃ k, s = rstrip s ++ k.
Proof.
  unfold rstrip. destruct (lstrip_suffix (rev s)) as [k Hk].
  exists (rev k). rewrite <- rev_app_distr, <- Hk. by rewrite rev_involutive.
Qed.

Lemma rstrip_app_keep p c rest :
  Py_UNICODE_ISSPACE c = false →
  ∃ r, rstrip ((p ++ [c]) ++ rest) = (p ++ [c]) ++ r.
Proof.
  intros Hc. unfold rstrip.
  rewrite !rev_app_distr. simpl.
  destruct (lstrip_app_keep c (rev p) (rev rest) Hc) as [k ->].
  exists (rev k). rewrite rev_app_distr. simpl.
  by rewrite rev_involutive.
Qed.

Lemma identifier_last stop id :
  identifier stop id →
  ∃ id' c, id = id' ++ [c] ∧ Py_UNICODE_ISSPACE c = false.
Proof.
  intros [Hne Hall]. destruct id as [|x id] using rev_ind; [done|].
  exists id, x. split; [done|].
  apply Forall_app in Hall as [_ Hx]. by inversion Hx as [|?? [_ ?] _].
Qed.

Lemma accepted_shape_last p :
  accepted_shape p →
  ∃ p' c, p = p' ++ [c] ∧ Py_UNICODE_ISSPACE c = false.
Proof.
  intros [sch s id _ _ Hid|sch s id _ _ Hid|sch s id _ _ Hid
         |sch s id _ _ Hid];
    destruct (identifier_last _ _ Hid) as (id' & c & -> & Hc);
    eexists _, c; (split; [|done]); by rewrite !app_assoc.
Qed.

(** What white space around a URL does to its validation: white space in
    front always makes the validator answer false; white space at the end
    never changes its answer.  So a string that does not begin with white
    space is validated alike as given (the command-line argument) and
    after [strip()] (the answer to the prompt). *)
Theorem white_space_and_validation :
  (∀ c s, Py_UNICODE_ISSPACE c = true →
          is_valid_youtube_url (c :: s) = false) ∧
  (∀ s, is_valid_youtube_url (rstrip s) = is_valid_youtube_url s) ∧
  (∀ s, lstrip s = s →
        is_valid_youtube_url (strip s) = is_valid_youtube_url s).
Proof.
  assert (∀ s, is_valid_youtube_url (rstrip s) = is_valid_youtube_url s)
    as Hr.
  { intros s. apply eq_true_iff_eq. split.
    - intros H. destruct (rstrip_prefix s) as [k Hk]. rewrite Hk.
      by apply is_valid_app.
    - rewrite !is_valid_has_prefix. intros (p & rest & -> & Hp).
      destruct (accepted_shape_last p Hp) as (p' & c & -> & Hc).
      destruct (rstrip_app_keep p' c rest Hc) as [r ->].
      by exists (p' ++ [c]), r. }
  split; [|split; [done|]].
  - intros c s Hc. apply not_true_is_false. intros Hv.
    apply is_valid_has_prefix in Hv as (p & rest & Heq & Hp).
    destruct (accepted_shape_starts p Hp) as [[r ->]|[r ->]];
      injection Heq as -> _; discriminate Hc.
  - intros s Hs. unfold strip. by rewrite Hs, Hr.
Qed.

Lemma white_space_and_validation_witness :
  is_valid_youtube_url (32%N :: sample_url) = false ∧
  is_valid_youtube_url (strip (sample_url ++ [32%N; 10%N]))
  = is_valid_youtube_url (sample_url ++ [32%N; 10%N]).
Proof.
  destruct white_space_and_validation as (Hfront & _ & Hback).
  split; [by apply Hfront|]. by apply Hback.
Defined.

(** ** A whole run with a logging engine *)

(** On the exit for the missing [ffmpeg.exe], the log file whose path was
    just announced has not been made: every path directly inside
    [Downloads] holds what it held when the run began. *)
Theorem announced_log_file_is_not_made_without_ffmpeg
    sep script_dir argv yt w url w1 f' :
  read_url argv w = (Ok url, w1) →
  is_valid_youtube_url url = true →
  mkdir_gives (downloads script_dir) (fs w) f' →
  fs w !! ffmpeg script_dir = None →
  printed (u "Log file: "
           ++ path_str sep (log_path (downloads script_dir)
                              (clock w1 (ticks w1))))
    ∈ trace (main sep script_dir argv yt w).2 ∧
  (∀ x, fs (main sep script_dir argv yt w).2 !! (downloads script_dir </> x)
        = fs w !! (downloads script_dir </> x)) ∧
  fs (main sep script_dir argv yt w).2
    !! log_path (downloads script_dir) (clock w1 (ticks w1))
  = fs w !! log_path (downloads script_dir) (clock w1 (ticks w1)).
Proof.
  intros Hread Hvalid Hmk Hnone.
  rewrite (main_missing _ _ _ _ _ url w1 f') by done.
  cbn [snd fs trace emit announced tick set_fs].
  split; [set_solver|].
  split; [|unfold log_path]; intros; by apply mkdir_gives_child.
Qed.

Lemma announced_log_file_is_not_made_without_ffmpeg_witness :
  fs (main backslash sample_dir (sample_argv [sample_url]) (sample_engine 0)
        (sample_world sample_fs [])).2
    !! log_path (downloads sample_dir) sample_time
  = fs (sample_world sample_fs [])
      !! log_path (downloads sample_dir) sample_time.
Proof.
  refine (proj2 (proj2
            (announced_log_file_is_not_made_without_ffmpeg backslash
               sample_dir (sample_argv [sample_url]) (sample_engine 0)
               (sample_world sample_fs []) sample_url
               (sample_world sample_fs [])
               (<[downloads sample_dir := Dir]> sample_fs) _ _ _ _))).
  - reflexivity.
  - reflexivity.
  - apply sample_mkdir_gives; by vm_compute.
  - by vm_compute.
Defined.

(** A run whose engine logs through the logger it was handed and then
    returns: the run ends normally; the log file at the announced path
    holds what it held before followed by the engine's lines; and the
    console shows the two announcements, then those same lines, then the
    closing line. *)
Theorem run_with_logging_engine
    sep script_dir argv w url w1 f' calls result c :
  read_url argv w = (Ok url, w1) →
  is_valid_youtube_url url = true →
  mkdir_gives (downloads script_dir) (fs w) f' →
  is_Some (fs w !! ffmpeg script_dir) →
  fs w !! log_path (downloads script_dir) (clock w1 (ticks w1))
    = Some (File c) ∨
  (fs w !! log_path (downloads script_dir) (clock w1 (ticks w1)) = None
   ∧ c = []) →
  ∃ w',
    main sep script_dir argv (logging_engine calls result) w = (Ok tt, w') ∧
    (calls ≠ [] →
     fs w' !! log_path (downloads script_dir) (clock w1 (ticks w1))
     = Some (File (c ++ log_text (clock w1) (S (ticks w1)) calls))) ∧
    stdout_text (trace w') =
      stdout_text (trace w1)
      ++ (u "Output folder: " ++ path_str sep (downloads script_dir)
          ++ [10%N])
      ++ (u "Log file: "
          ++ path_str sep (log_path (downloads script_dir)
                             (clock w1 (ticks w1))) ++ [10%N])
      ++ log_text (clock w1) (S (ticks w1)) calls
      ++ (if result =? 0 then complete_message else failed_message result)
      ++ [10%N] ∧
    open_files w' = open_files w1.
Proof.
  intros Hread Hvalid Hmk Hsome Hlog.
  set (logpath := log_path (downloads script_dir) (clock w1 (ticks w1))) in *.
  set (w2 := announced sep script_dir f' w1).
  assert (appendable logpath (fs w2) c) as Happ.
  { assert (fs w2 !! logpath = fs w !! logpath) as Hsame
      by (by apply mkdir_gives_child).
    destruct Hlog as [Hfile|[Hnone ->]]; [left; congruence|right].
    split; [congruence|]. split; [|done].
    unfold logpath, log_path. rewrite parent_joinpath.
    by apply (mkdir_gives_is_dir _ (fs w)). }
  destruct (log_calls_run (mkFileLogger logpath) calls c w2 Happ)
    as (w3 & Hrun & _ & Hfile & Hout & Hopen & _ & _ & _).
  exists (emit (printed (if result =? 0 then complete_message
                         else failed_message result)) w3).
  split; [|split; [exact Hfile|split; [|exact Hopen]]].
  - rewrite (main_to_engine _ _ _ _ _ url w1 f') by done.
    fold logpath w2.
    assert (logging_engine calls result
              (passed_opts sep script_dir (clock w1 (ticks w1))) [url] w2
            = (Ok result, w3)) as Hyt.
    { unfold logging_engine, passed_opts. rewrite lookup_insert_eq.
      fold logpath. by rewrite (bind_Ok _ _ _ _ _ Hrun). }
    rewrite (bind_Ok _ _ _ _ _ Hyt). by destruct (result =? 0).
  - unfold printed. cbn [trace emit].
    rewrite stdout_text_snoc_Stdout, Hout.
    unfold w2, announced, printed. cbn [trace emit tick set_fs ticks clock].
    rewrite !stdout_text_snoc_Stdout, stdout_text_snoc_Mkdir.
    fold logpath. by rewrite <- !app_assoc.
Qed.

Lemma run_with_logging_engine_witness :
  ∃ w',
    main backslash sample_dir (sample_argv [sample_url])
      (logging_engine [(Debug, u "a"); (Error, u "b")] 1)
      (sample_world sample_fs_ffmpeg []) = (Ok tt, w') ∧
    fs w' !! log_path (downloads sample_dir) sample_time
    = Some (File (u "[2024-02-29 23:59:07.001500] [DEBUG] a" ++ [10%N]
                  ++ u "[2024-02-29 23:59:07.001500] [ERROR] b" ++ [10%N])).
Proof.
  destruct (run_with_logging_engine backslash sample_dir
              (sample_argv [sample_url]) (sample_world sample_fs_ffmpeg [])
              sample_url (sample_world sample_fs_ffmpeg [])
              (<[downloads sample_dir := Dir]> sample_fs_ffmpeg)
              [(Debug, u "a"); (Error, u "b")] 1 [])
    as (w' & Hmain & Hfile & _).
  - reflexivity.
  - reflexivity.
  - apply sample_mkdir_gives; by vm_compute.
  - exact sample_ffmpeg_present.
  - right. split; [by vm_compute|done].
  - exists w'. split; [exact Hmain|]. by apply Hfile.
Defined.

(** ** An identifier that is missing *)

(** A URL that stops after the body ([...watch?v=], [...playlist?list=],
    [youtu.be/]), or goes on with the one separator the body's pattern
    excludes or with white space, has no identifier and is rejected,
    whatever follows. *)
Theorem empty_identifier_is_rejected sch sub k rest :
  is_scheme sch → tolerated k sub →
  rest = [] ∨
  (∃ c r, rest = c :: r ∧ (c = stop_char k ∨ Py_UNICODE_ISSPACE c = true)) →
  is_valid_youtube_url (url_of sch sub k [] ++ rest) = false.
Proof.
  intros Hsch Hsub Hrest.
  destruct Hrest as [-> |(c & r & -> & [-> |Hc])].
  - destruct k, Hsch as [-> | ->], Hsub as [-> |[-> |[? ->]]];
      try discriminate; reflexivity.
  - destruct k, Hsch as [-> | ->], Hsub as [-> |[-> |[? ->]]];
      try discriminate; reflexivity.
  - destruct k, Hsch as [-> | ->], Hsub as [-> |[-> |[? ->]]];
      try discriminate;
      cbv -[Py_UNICODE_ISSPACE orb andb negb];
      rewrite Hc, ?orb_true_l, ?orb_true_r; reflexivity.
Qed.

Lemma empty_identifier_is_rejected_witness :
  is_valid_youtube_url
    (url_of (u "https") (u "www.") Watch [] ++ u "&list=PL1") = false.
Proof.
  apply (empty_identifier_is_rejected (u "https") (u "www.") Watch
           (u "&list=PL1")).
  - by right.
  - right. by left.
  - right. exists 38%N, (u "list=PL1"). split; [done|]. by left.
Defined.
